(** * Linksly URL shortener: the request handlers of [src/server/api.ts]

    A shallow embedding of the Express handlers over the Prisma schema
    (models [Link] and [Click]), with the relational store as explicit
    state and thrown errors as an outcome, followed by the properties of
    link creation, short-code resolution, click recording, listing and
    the analytics overview. *)

From Stdlib Require Import ZArith String Ascii List Lia Bool.
From stdpp Require Import base tactics option list strings sorting.

Local Open Scope string_scope.
Local Open Scope list_scope.
Local Open Scope Z_scope.

(** ** Data model (prisma schema, [src/types/index.ts]) *)

(** Ids are [cuid()] values.  They are opaque and unique; the store hands
    them out from a counter. *)
Definition Id := nat.

(** Dates are milliseconds since the epoch. *)
Definition DateTime := Z.

Module Link.
Record t := mk {
  id : Id;
  originalUrl : string;
  shortCode : string;
  customAlias : option string;
  title : option string;
  description : option string;
  createdAt : DateTime;
  updatedAt : DateTime;
  expiresAt : option DateTime;
  isActive : bool;
  totalClicks : Z
}.
End Link.

Module Click.
Record t := mk {
  id : Id;
  linkId : Id;
  ip : option string;
  userAgent : option string;
  referer : option string;
  country : option string;
  city : option string;
  device : option string;
  browser : option string;
  os : option string;
  createdAt : DateTime
}.
End Click.

(** The tables [links] and [clicks], in insertion order. *)
Record Store := mkStore {
  links : list Link.t;
  clicks : list Click.t;
  nextId : Id
}.

Definition empty_store : Store := mkStore [] [] 0%nat.

(** [CreateLinkRequest] of [src/types/index.ts]: the JSON body of
    [POST /api/links]. *)
Record CreateLinkRequest := mkCreateLinkRequest {
  rq_originalUrl : string;
  rq_customAlias : option string;
  rq_title : option string;
  rq_description : option string;
  rq_expiresAt : option string
}.

(** What the redirect handler reads from the request: [req.ip],
    [req.get('User-Agent')], [req.get('Referer')]. *)
Record RequestMeta := mkRequestMeta {
  req_ip : option string;
  req_userAgent : option string;
  req_referer : option string
}.

(** The query string of [GET /api/links]. *)
Record ListQuery := mkListQuery {
  q_page : option string;
  q_limit : option string
}.

Record Pagination := mkPagination {
  pg_page : Z;
  pg_limit : Z;
  pg_total : Z;
  pg_pages : Z
}.

(** [TopLink] of [src/types/index.ts]: the [select] of the overview. *)
Record TopLink := mkTopLink {
  tl_id : Id;
  tl_originalUrl : string;
  tl_shortCode : string;
  tl_totalClicks : Z;
  tl_title : option string
}.

(** The overview without [clicksOverTime], which is a raw SQL query on
    the engine's date functions. *)
Record Analytics := mkAnalytics {
  an_totalLinks : Z;
  an_totalClicks : Z;
  an_recentClicks : Z;
  an_topLinks : list TopLink
}.

Inductive Body :=
| ErrorBody (error : string)
| LinkBody (l : Link.t)
| LinkDetailBody (l : Link.t) (cs : list Click.t)
| LinksBody (ls : list (Link.t * Z)) (p : Pagination)
| AnalyticsBody (a : Analytics).

Inductive Response :=
| Json (status : nat) (b : Body)
| Redirect (status : nat) (location : string).

(** ** Thrown errors and the handler monad

    A handler runs against the store and either returns or throws; the
    writes made before a throw stay in the store. *)

Inductive Exn :=
| ZodError
| PrismaError (code : string).

Inductive Outcome (A : Type) :=
| Ret (a : A)
| Throw (e : Exn).
Arguments Ret {A} a.
Arguments Throw {A} e.

Definition M (A : Type) : Type := Store -> Outcome A * Store.

Definition ret {A} (a : A) : M A := fun s => (Ret a, s).
Definition throw {A} (e : Exn) : M A := fun s => (Throw e, s).
Definition bind {A B} (m : M A) (k : A -> M B) : M B :=
  fun s => match m s with
           | (Ret a, s') => k a s'
           | (Throw e, s') => (Throw e, s')
           end.

Notation "'let*' x ':=' m 'in' k" := (bind m (fun x => k))
  (at level 10, x name, m at level 100, k at level 200).
Notation "'let*' ' pat ':=' m 'in' k" :=
  (bind m (fun x => match x with pat => k end))
  (at level 10, pat pattern, m at level 100, k at level 200).

(** [await Promise.all([m1, m2])]: both operations are started, so the
    second runs whether or not the first one throws; the first rejection
    is the one rethrown. *)
Definition promise_all {A B} (m1 : M A) (m2 : M B) : M (A * B) :=
  fun s =>
    let '(o1, s1) := m1 s in
    let '(o2, s2) := m2 s1 in
    match o1, o2 with
    | Ret a, Ret b => (Ret (a, b), s2)
    | Throw e, _ => (Throw e, s2)
    | _, Throw e => (Throw e, s2)
    end.

(** [try { body } catch (error) { handler }]. *)
Definition try_catch {A} (body : M A) (handler : Exn -> M A) : M A :=
  fun s => match body s with
           | (Ret a, s') => (Ret a, s')
           | (Throw e, s') => handler e s'
           end.

(** ** JavaScript values *)

(** Truthiness of an optional string: [undefined] and [""] are falsy. *)
Definition truthy (o : option string) : bool :=
  match o with
  | Some s => negb (String.eqb s "")
  | None => false
  end.

(** The result of [parseInt]. *)
Inductive jsnum :=
| NaN
| Num (z : Z).

(** Strings hold UTF-8.  The white space of JavaScript ([WhiteSpace] and
    [LineTerminator]) in one byte: TAB, LF, VT, FF, CR and SP; a byte A0,
    which UTF-8 never has at the start of a character, is read as the
    Latin-1 no-break space. *)
Definition is_ws (c : ascii) : bool :=
  let n := nat_of_ascii c in
  ((n =? 32) || ((9 <=? n) && (n <=? 13)) || (n =? 160))%nat.

Definition byte_of (c : ascii) : Z := Z.of_N (N_of_ascii c).

(** The first byte of a white space character of two or three bytes. *)
Definition is_ws_lead (c : ascii) : bool :=
  let n := byte_of c in
  (n =? 194) || (n =? 225) || (n =? 226) || (n =? 227) || (n =? 239).

(** U+00A0 in UTF-8. *)
Definition is_ws2 (c c1 : ascii) : bool :=
  (byte_of c =? 194) && (byte_of c1 =? 160).

(** U+1680, U+2000 to U+200A, U+2028, U+2029, U+202F, U+205F, U+3000
    and U+FEFF in UTF-8. *)
Definition is_ws3 (c c1 c2 : ascii) : bool :=
  let n := byte_of c in
  let n1 := byte_of c1 in
  let n2 := byte_of c2 in
  ((n =? 225) && (n1 =? 154) && (n2 =? 128))
  || ((n =? 226) && (n1 =? 128)
      && (((128 <=? n2) && (n2 <=? 138)) || (n2 =? 168) || (n2 =? 169) || (n2 =? 175)))
  || ((n =? 226) && (n1 =? 129) && (n2 =? 159))
  || ((n =? 227) && (n1 =? 128) && (n2 =? 128))
  || ((n =? 239) && (n1 =? 187) && (n2 =? 191)).

(** The string without the white space at its start. *)
Fixpoint skip_ws (s : string) : string :=
  match s with
  | String c r =>
      if is_ws c then skip_ws r
      else if is_ws_lead c then
        match r with
        | String c1 r1 =>
            if is_ws2 c c1 then skip_ws r1
            else
              match r1 with
              | String c2 r2 => if is_ws3 c c1 c2 then skip_ws r2 else s
              | EmptyString => s
              end
        | EmptyString => s
        end
      else s
  | EmptyString => s
  end.

(** [!s.trim()]: nothing is left once the white space is trimmed. *)
Definition blank (s : string) : bool := String.eqb (skip_ws s) "".

Definition digit_val (radix : Z) (c : ascii) : option Z :=
  let n := Z.of_nat (nat_of_ascii c) in
  let d := if (48 <=? n) && (n <=? 57) then n - 48
           else if (97 <=? n) && (n <=? 122) then n - 87
           else if (65 <=? n) && (n <=? 90) then n - 55
           else radix in
  if d <? radix then Some d else None.

Fixpoint digits_prefix (radix : Z) (s : string) (acc : option Z) : option Z :=
  match s with
  | String c r =>
      match digit_val radix c with
      | Some d => digits_prefix radix r (Some (radix * default 0 acc + d))
      | None => acc
      end
  | EmptyString => acc
  end.

(** [Infinity] among the integers: the least power of two that is not a
    double. *)
Definition double_inf : Z := 2 ^ 1024.

(** The Number value of an integer: the integer itself below 2^53, and
    otherwise the nearest double, ties to the even significand;
    [double_inf] and its opposite stand for [Infinity] and [-Infinity]. *)
Definition to_double (n : Z) : Z :=
  let a := Z.abs n in
  if a <? 2 ^ 53 then n
  else
    let e := Z.log2 a - 52 in
    let q := a / 2 ^ e in
    let r := a mod 2 ^ e in
    let half := 2 ^ (e - 1) in
    let q' := if (half <? r) || ((r =? half) && Z.odd q) then q + 1 else q in
    let m := q' * 2 ^ e in
    Z.sgn n * (if double_inf <=? m then double_inf else m).
Arguments to_double : simpl never.

(** [parseInt(x)] with no radix, on an absent ([undefined]) or present
    query parameter: leading white space, a sign, a [0x] prefix, then the
    longest run of digits; [NaN] when there is none, and otherwise the
    Number value of the signed integer. *)
Definition parseInt (x : option string) : jsnum :=
  match x with
  | None => NaN
  | Some s =>
      let s1 := skip_ws s in
      let '(sign, s2) :=
        match s1 with
        | String "-" r => (-1, r)
        | String "+" r => (1, r)
        | _ => (1, s1)
        end in
      let '(radix, s3) :=
        match s2 with
        | String "0" (String "x" r) => (16, r)
        | String "0" (String "X" r) => (16, r)
        | _ => (10, s2)
        end in
      match digits_prefix radix s3 None with
      | Some n => Num (to_double (sign * n))
      | None => NaN
      end
  end.

(** [n || d] on numbers: [NaN] and [0] are falsy. *)
Definition num_or (n : jsnum) (d : Z) : Z :=
  match n with
  | NaN => d
  | Num 0 => d
  | Num z => z
  end.

(** [Math.ceil(a / b)] for [b <> 0]. *)
Definition ceil_div (a b : Z) : Z := - ((- a) / b).

(** ** [src/lib/utils.ts] and the platform functions it calls *)

(** The functions of the platform and of the validation library that the
    handlers call on strings: zod's [string().url()] and
    [string().datetime()] checks, [new URL(s)] not throwing, and the time
    value of [new Date(s)] ([None] for an invalid date). *)
Class Platform := mkPlatform {
  zod_url : string -> bool;
  zod_datetime : string -> bool;
  newURL_ok : string -> bool;
  Date_parse : string -> option DateTime
}.

Definition formatUrl (url : string) : string :=
  if negb (String.prefix "http://" url) && negb (String.prefix "https://" url)
  then "https://" +:+ url
  else url.

Section Utils.
Context {P : Platform}.

Definition isValidUrl (s : string) : bool := newURL_ok s.

(** [LinkShortener.validateForm]: the keys of [newErrors], [now] being
    [new Date()]. *)
Definition validateForm (now : DateTime) (url : string)
    (customAlias expiresAt : string) : list string :=
  (if blank url then ["url"]
   else if negb (isValidUrl url) then ["url"] else [])
  ++ (if truthy (Some customAlias) && (String.length customAlias <? 3)%nat
      then ["customAlias"] else [])
  ++ (if truthy (Some expiresAt)
      then match Date_parse expiresAt with
           | Some t => if t <=? now then ["expiresAt"] else []
           | None => []
           end
      else []).
End Utils.

(** ** The Prisma client on the store *)

(** [where: { customAlias }] of [link.findUnique]. *)
Definition has_alias (alias : string) (l : Link.t) : bool :=
  bool_decide (Link.customAlias l = Some alias).

Definition has_shortCode (code : string) (l : Link.t) : bool :=
  bool_decide (Link.shortCode l = code).

Definition has_id (i : Id) (l : Link.t) : bool :=
  bool_decide (Link.id l = i).

(** [where: { OR: [{ shortCode }, { customAlias: shortCode }],
    isActive: true }] of the redirect handler. *)
Definition matches_code (code : string) (l : Link.t) : bool :=
  (has_shortCode code l || has_alias code l) && Link.isActive l.

Definition link_findUnique_customAlias (alias : string) : M (option Link.t) :=
  fun s => (Ret (List.find (has_alias alias) (links s)), s).

Definition link_findFirst_code (code : string) : M (option Link.t) :=
  fun s => (Ret (List.find (matches_code code) (links s)), s).

(** The [data] of [link.create]. *)
Record LinkCreateInput := mkLinkCreateInput {
  d_originalUrl : string;
  d_shortCode : string;
  d_customAlias : option string;
  d_title : option string;
  d_description : option string;
  d_expiresAt : option DateTime
}.

(** The [@unique] constraints of [shortCode] and [customAlias]; a null
    alias never conflicts. *)
Definition unique_violation (d : LinkCreateInput) (s : Store) : bool :=
  existsb (has_shortCode (d_shortCode d)) (links s)
  || match d_customAlias d with
     | Some a => existsb (has_alias a) (links s)
     | None => false
     end.

(** [link.create]: the row gets a fresh id, [createdAt = updatedAt = now],
    [isActive = true] and [totalClicks = 0] from the schema defaults. *)
Definition link_create (now : DateTime) (d : LinkCreateInput) : M Link.t :=
  fun s =>
    if unique_violation d s then (Throw (PrismaError "P2002"), s)
    else
      let l := Link.mk (nextId s) (d_originalUrl d) (d_shortCode d)
                 (d_customAlias d) (d_title d) (d_description d)
                 now now (d_expiresAt d) true 0 in
      (Ret l, mkStore (links s ++ [l]) (clicks s) (S (nextId s))).

(** [click.create] with [linkId], [ip], [userAgent] and [referer]; the
    foreign key must point to an existing link. *)
Definition click_create (now : DateTime) (linkId : Id)
    (ip userAgent referer : option string) : M Click.t :=
  fun s =>
    if existsb (has_id linkId) (links s) then
      let c := Click.mk (nextId s) linkId ip userAgent referer
                 None None None None None now in
      (Ret c, mkStore (links s) (clicks s ++ [c]) (S (nextId s)))
    else (Throw (PrismaError "P2003"), s).

Definition increment_totalClicks (now : DateTime) (n : Z) (l : Link.t) : Link.t :=
  Link.mk (Link.id l) (Link.originalUrl l) (Link.shortCode l)
    (Link.customAlias l) (Link.title l) (Link.description l)
    (Link.createdAt l) now (Link.expiresAt l) (Link.isActive l)
    (Link.totalClicks l + n).

(** [link.update({ where: { id }, data: { totalClicks: { increment: n } } })]. *)
Definition link_update_increment (now : DateTime) (i : Id) (n : Z) : M Link.t :=
  fun s =>
    match List.find (has_id i) (links s) with
    | Some l =>
        (Ret (increment_totalClicks now n l),
         mkStore (map (fun x => if has_id i x then increment_totalClicks now n x else x)
                      (links s))
                 (clicks s) (nextId s))
    | None => (Throw (PrismaError "P2025"), s)
    end.

(** [orderBy: { createdAt: 'desc' }] on links and on clicks, and
    [orderBy: { totalClicks: 'desc' }]. *)
Definition newer (a b : Link.t) : Prop := Link.createdAt b <= Link.createdAt a.
Definition newer_click (a b : Click.t) : Prop := Click.createdAt b <= Click.createdAt a.
Definition more_clicked (a b : Link.t) : Prop := Link.totalClicks b <= Link.totalClicks a.

#[global] Instance newer_dec : RelDecision newer.
Proof. intros a b. unfold newer. apply _. Defined.
#[global] Instance newer_click_dec : RelDecision newer_click.
Proof. intros a b. unfold newer_click. apply _. Defined.
#[global] Instance more_clicked_dec : RelDecision more_clicked.
Proof. intros a b. unfold more_clicked. apply _. Defined.

(** The values that the query engine takes for [skip] and [take]:
    64-bit signed integers. *)
Definition fits_int64 (z : Z) : bool := (- 2 ^ 63 <=? z) && (z <? 2 ^ 63).

(** [skip] and [take] on an ordered result: a value that does not fit 64
    bits and a negative [skip] are refused, a negative [take] counts from
    the end of the order.  No more rows than there are can be skipped or
    taken. *)
Definition page_of {A} (skip take_ : Z) (sorted : list A) : Outcome (list A) :=
  if negb (fits_int64 skip) || negb (fits_int64 take_) then
    Throw (PrismaError "Int")
  else if skip <? 0 then Throw (PrismaError "skip")
  else
    let n := Z.of_nat (length sorted) in
    let skipped := Z.to_nat (Z.min skip n) in
    if 0 <=? take_ then
      Ret (take (Z.to_nat (Z.min take_ n)) (drop skipped sorted))
    else
      Ret (reverse (take (Z.to_nat (Z.min (- take_) n)) (drop skipped (reverse sorted)))).

(** [_count: { select: { clicks: true } }]. *)
Definition count_clicks_of (s : Store) (l : Link.t) : Z :=
  Z.of_nat (length (List.filter (fun c => bool_decide (Click.linkId c = Link.id l)) (clicks s))).

Definition link_findMany_page (skip take_ : Z) : M (list (Link.t * Z)) :=
  fun s =>
    match page_of skip take_ (merge_sort newer (links s)) with
    | Ret ls => (Ret (map (fun l => (l, count_clicks_of s l)) ls), s)
    | Throw e => (Throw e, s)
    end.

Definition link_count : M Z :=
  fun s => (Ret (Z.of_nat (length (links s))), s).

Definition click_count : M Z :=
  fun s => (Ret (Z.of_nat (length (clicks s))), s).

(** [click.count({ where: { createdAt: { gte } } })]. *)
Definition click_count_gte (since : DateTime) : M Z :=
  fun s => (Ret (Z.of_nat (length (List.filter (fun c => since <=? Click.createdAt c) (clicks s)))), s).

Definition select_top (l : Link.t) : TopLink :=
  mkTopLink (Link.id l) (Link.originalUrl l) (Link.shortCode l)
    (Link.totalClicks l) (Link.title l).

Definition link_findMany_top (n : nat) : M (list TopLink) :=
  fun s => (Ret (map select_top (take n (merge_sort more_clicked (links s)))), s).

(** [link.findUnique({ where: { id }, include: { clicks: { orderBy:
    { createdAt: 'desc' }, take: 100 } } })]. *)
Definition link_findUnique_with_clicks (i : Id) : M (option (Link.t * list Click.t)) :=
  fun s =>
    (Ret (match List.find (has_id i) (links s) with
          | Some l =>
              Some (l, take 100 (merge_sort newer_click
                         (List.filter (fun c => bool_decide (Click.linkId c = Link.id l))
                                      (clicks s))))
          | None => None
          end), s).

(** ** The handlers of [src/server/api.ts] *)

Definition internal_error : Response := Json 500 (ErrorBody "Internal server error").

(** [customAlias || nanoid(8)]. *)
Definition alias_or (customAlias : option string) (generated : string) : string :=
  match customAlias with
  | Some a => if truthy customAlias then a else generated
  | None => generated
  end.

Section Handlers.
Context {P : Platform}.

(** [createLinkSchema]: [originalUrl] must pass [url()], and
    [expiresAt], when present, [datetime()]; the other fields are
    optional strings. *)
Definition createLinkSchema_ok (body : CreateLinkRequest) : bool :=
  zod_url (rq_originalUrl body)
  && match rq_expiresAt body with
     | Some e => zod_datetime e
     | None => true
     end.

Definition createLinkSchema_parse (body : CreateLinkRequest) : M CreateLinkRequest :=
  if createLinkSchema_ok body then ret body else throw ZodError.

(** [expiresAt ? new Date(expiresAt) : undefined]; the client refuses
    an invalid date when the row is written. *)
Definition expiry_date (expiresAt : option string) : M (option DateTime) :=
  match expiresAt with
  | Some e =>
      if truthy expiresAt then
        match Date_parse e with
        | Some t => ret (Some t)
        | None => throw (PrismaError "Invalid Date")
        end
      else ret None
  | None => ret None
  end.

(** [app.post('/api/links')]; [now] is the clock and [nanoid8] the value
    that [nanoid(8)] returns when it is called. *)
Definition post_api_links (now : DateTime) (nanoid8 : string)
    (body : CreateLinkRequest) : M Response :=
  try_catch
    (let* rq := createLinkSchema_parse body in
     let formattedUrl := formatUrl (rq_originalUrl rq) in
     if negb (isValidUrl formattedUrl) then
       ret (Json 400 (ErrorBody "Invalid URL"))
     else
       let shortCode := alias_or (rq_customAlias rq) nanoid8 in
       let* existing := (match rq_customAlias rq with
                    | Some a =>
                        if truthy (rq_customAlias rq)
                        then link_findUnique_customAlias a
                        else ret None
                    | None => ret None
                    end) in
       match existing with
       | Some _ => ret (Json 400 (ErrorBody "Custom alias already exists"))
       | None =>
           let* expires := expiry_date (rq_expiresAt rq) in
           let* link := link_create now
                     (mkLinkCreateInput formattedUrl shortCode (rq_customAlias rq)
                        (rq_title rq) (rq_description rq) expires) in
           ret (Json 201 (LinkBody link))
       end)
    (fun error =>
       match error with
       | ZodError => ret (Json 400 (ErrorBody "Invalid input data"))
       | _ => ret internal_error
       end).
End Handlers.

(** [page], [limit] and [skip] of [app.get('/api/links')]; the
    subtraction and the product are those of Numbers.  (For [page = 1]
    and an infinite [limit] the product is [NaN] and not 0; the query is
    refused then for its [take].) *)
Definition list_page (q : ListQuery) : Z := num_or (parseInt (q_page q)) 1.
Definition list_limit (q : ListQuery) : Z := num_or (parseInt (q_limit q)) 10.
Definition list_skip (q : ListQuery) : Z :=
  to_double (to_double (list_page q - 1) * list_limit q).

(** [app.get('/api/links')]. *)
Definition get_api_links (q : ListQuery) : M Response :=
  try_catch
    (let page := list_page q in
     let limit := list_limit q in
     let skip := list_skip q in
     let* '(ls, total) := promise_all (link_findMany_page skip limit) link_count in
     ret (Json 200 (LinksBody ls (mkPagination page limit total (ceil_div total limit)))))
    (fun _ => ret internal_error).

(** [app.get('/api/links/:id')]. *)
Definition get_api_links_id (i : Id) : M Response :=
  try_catch
    (let* link := link_findUnique_with_clicks i in
     match link with
     | None => ret (Json 404 (ErrorBody "Link not found"))
     | Some (l, cs) => ret (Json 200 (LinkDetailBody l cs))
     end)
    (fun _ => ret internal_error).

(** [link.expiresAt && new Date() > link.expiresAt]. *)
Definition expired (now : DateTime) (l : Link.t) : bool :=
  match Link.expiresAt l with
  | Some e => e <? now
  | None => false
  end.

(** [app.get('/s/:shortCode')]. *)
Definition get_s_shortCode (now : DateTime) (shortCode : string)
    (meta : RequestMeta) : M Response :=
  try_catch
    (let* link := link_findFirst_code shortCode in
     match link with
     | None => ret (Json 404 (ErrorBody "Link not found"))
     | Some link =>
         if expired now link then ret (Json 410 (ErrorBody "Link has expired"))
         else
           let* _ := promise_all
                  (click_create now (Link.id link)
                     (req_ip meta) (req_userAgent meta) (req_referer meta))
                  (link_update_increment now (Link.id link) 1) in
           ret (Redirect 302 (Link.originalUrl link))
     end)
    (fun _ => ret internal_error).

Definition seven_days : Z := 7 * 24 * 60 * 60 * 1000.

(** [app.get('/api/analytics/overview')]. *)
Definition get_api_analytics_overview (now : DateTime) : M Response :=
  try_catch
    (let* '(totalLinks, (totalClicks, recentClicks)) :=
        promise_all link_count
          (promise_all click_count (click_count_gte (now - seven_days))) in
     let* topLinks := link_findMany_top 5 in
     ret (Json 200 (AnalyticsBody
                      (mkAnalytics totalLinks totalClicks recentClicks topLinks))))
    (fun _ => ret internal_error).

(** ** The server as a transition system *)

Inductive Request :=
| CreateReq (nanoid8 : string) (body : CreateLinkRequest)
| RedirectReq (code : string) (meta : RequestMeta)
| ListReq (q : ListQuery)
| GetReq (i : Id)
| OverviewReq.

Definition handle {P : Platform} (now : DateTime) (r : Request) : M Response :=
  match r with
  | CreateReq nanoid8 body => post_api_links now nanoid8 body
  | RedirectReq code meta => get_s_shortCode now code meta
  | ListReq q => get_api_links q
  | GetReq i => get_api_links_id i
  | OverviewReq => get_api_analytics_overview now
  end.

(** The stores the server can be in: the empty database, and the store
    left by any request handled in such a store at any time. *)
Inductive reachable {P : Platform} : Store -> Prop :=
| reachable_empty : reachable empty_store
| reachable_handle s now r : reachable s -> reachable (snd (handle now r s)).

Definition sum_totalClicks (ls : list Link.t) : Z :=
  foldr (fun l acc => Link.totalClicks l + acc) 0 ls.

(** ** A platform instance for evaluating the handlers

    The scheme test of the URL standard (scheme start state and scheme
    state: a letter, then letters, digits, [+], [-], [.] up to a colon).
    With no base URL, a string without surrounding white space that fails
    it is not a URL; the sample URLs below that pass it are URLs.  The
    date functions know one instant. *)

Definition is_alpha (c : ascii) : bool :=
  let n := Z.of_nat (nat_of_ascii c) in
  ((97 <=? n) && (n <=? 122)) || ((65 <=? n) && (n <=? 90)).

Definition is_scheme_char (c : ascii) : bool :=
  let n := Z.of_nat (nat_of_ascii c) in
  is_alpha c || ((48 <=? n) && (n <=? 57)) || (n =? 43) || (n =? 45) || (n =? 46).

Fixpoint scheme_rest (s : string) : bool :=
  match s with
  | String c r =>
      if Ascii.eqb c ":" then true
      else if is_scheme_char c then scheme_rest r else false
  | EmptyString => false
  end.

Definition has_scheme (s : string) : bool :=
  match s with
  | String c r => is_alpha c && scheme_rest r
  | EmptyString => false
  end.

Definition one_instant (s : string) : option DateTime :=
  if String.eqb s "2030-01-01T00:00:00.000Z" then Some 1893456000000 else None.

Definition scheme_platform : Platform :=
  mkPlatform has_scheme (fun s => bool_decide (is_Some (one_instant s)))
    has_scheme one_instant.

(** Sample stores and requests. *)

Definition body_plain : CreateLinkRequest :=
  mkCreateLinkRequest "https://example.com/a/b" None None None None.

Definition body_schemeless : CreateLinkRequest :=
  mkCreateLinkRequest "example.com/a/b" None None None None.

Definition body_alias (a : string) : CreateLinkRequest :=
  mkCreateLinkRequest "https://example.com/docs" (Some a) (Some "Docs") None
    (Some "2030-01-01T00:00:00.000Z").

Definition meta_curl : RequestMeta :=
  mkRequestMeta (Some "203.0.113.7") (Some "curl/8.5.0") None.

(** One link with a generated code. *)
Definition store_one : Store :=
  Eval vm_compute in
    snd (handle (P := scheme_platform) 1000 (CreateReq "V1StGXR8" body_plain) empty_store).

Definition link_one : Link.t :=
  Link.mk 0%nat "https://example.com/a/b" "V1StGXR8" None None None
    1000 1000 None true 0.

(** The same link after one redirect. *)
Definition store_clicked : Store :=
  Eval vm_compute in
    snd (handle (P := scheme_platform) 2000 (RedirectReq "V1StGXR8" meta_curl) store_one).

(** An active link that expired at time 500, and an inactive one. *)
Definition store_expired : Store :=
  mkStore
    [Link.mk 0%nat "https://example.com/old" "oldcode1" (Some "promo") None None
       100 100 (Some 500) true 0;
     Link.mk 1%nat "https://example.com/off" "offcode1" None None None
       200 200 None false 0]
    [] 2%nat.

(** More sample requests. *)
Definition body_other : CreateLinkRequest :=
  mkCreateLinkRequest "https://example.org/pricing" None None None None.

Definition body_empty_alias : CreateLinkRequest :=
  mkCreateLinkRequest "https://example.org/pricing" (Some "") None None None.

Definition body_short_alias : CreateLinkRequest :=
  mkCreateLinkRequest "https://example.org/pricing" (Some "ab") None None None.

(** A store whose only link has the alias "docs". *)
Definition store_docs : Store :=
  Eval vm_compute in
    snd (handle (P := scheme_platform) 1000 (CreateReq "k3J9x_Qa" (body_alias "docs")) empty_store).

(** The link and the click row of [store_clicked]. *)
Definition link_clicked : Link.t :=
  Link.mk 0%nat "https://example.com/a/b" "V1StGXR8" None None None
    1000 2000 None true 1.

Definition click_one : Click.t :=
  Click.mk 1%nat 0%nat (Some "203.0.113.7") (Some "curl/8.5.0") None
    None None None None None 2000.


(** [store_one] with a second link, under the alias "docs", and with a
    third one. *)
Definition store_two : Store :=
  Eval vm_compute in
    snd (handle (P := scheme_platform) 2000 (CreateReq "k3J9x_Qa" (body_alias "docs"))
           store_one).

Definition link_docs : Link.t :=
  Link.mk 1%nat "https://example.com/docs" "docs" (Some "docs") (Some "Docs") None
    2000 2000 (Some 1893456000000) true 0.

Definition store_three : Store :=
  Eval vm_compute in
    snd (handle (P := scheme_platform) 3000 (CreateReq "k3J9x_Qa" body_other) store_two).

(** Links in strictly descending order of [createdAt]. *)
Definition strictly_newer (a b : Link.t) : Prop := Link.createdAt b < Link.createdAt a.

(** ** Well-formed stores *)

(** Link ids are pairwise distinct and below the id counter. *)
Definition wf (s : Store) : Prop :=
  NoDup (map Link.id (links s))
  /\ Forall (fun l => (Link.id l < nextId s)%nat) (links s).

(** The denormalized counters add up to the number of click rows. *)
Definition consistent (s : Store) : Prop :=
  Z.of_nat (length (clicks s)) = sum_totalClicks (links s).

(** The click row that the redirect handler writes. *)
Definition recorded_click (s : Store) (now : DateTime) (l : Link.t)
    (meta : RequestMeta) : Click.t :=
  Click.mk (nextId s) (Link.id l) (req_ip meta) (req_userAgent meta)
    (req_referer meta) None None None None None now.

(** The row that [link.create] writes for a request body, [expires]
    being the date of its [expiresAt]. *)
Definition created_link (s : Store) (now : DateTime) (nanoid8 : string)
    (body : CreateLinkRequest) (expires : option DateTime) : Link.t :=
  Link.mk (nextId s) (formatUrl (rq_originalUrl body))
    (alias_or (rq_customAlias body) nanoid8) (rq_customAlias body)
    (rq_title body) (rq_description body) now now expires true 0.

Definition with_link (s : Store) (l : Link.t) : Store :=
  mkStore (links s ++ [l]) (clicks s) (S (nextId s)).

(** The lookup that guards the insert finds nothing: the alias is
    absent or empty, or no link has it. *)
Definition alias_free (body : CreateLinkRequest) (s : Store) : Prop :=
  match rq_customAlias body with
  | Some a => a = "" \/ existsb (has_alias a) (links s) = false
  | None => True
  end.

(** The [data] that the create handler passes to [link.create]. *)
Definition create_input (nanoid8 : string) (body : CreateLinkRequest)
    (expires : option DateTime) : LinkCreateInput :=
  mkLinkCreateInput (formatUrl (rq_originalUrl body))
    (alias_or (rq_customAlias body) nanoid8) (rq_customAlias body)
    (rq_title body) (rq_description body) expires.

(** The store after a recorded redirect to [link]. *)
Definition with_click (s : Store) (now : DateTime) (link : Link.t)
    (meta : RequestMeta) : Store :=
  mkStore
    (map (fun x => if has_id (Link.id link) x
                   then increment_totalClicks now 1 x else x) (links s))
    (clicks s ++ [recorded_click s now link meta])
    (S (nextId s)).

(** ** The QR handler *)

Inductive QrResponse :=
| QrJson (qrCode : string)
| QrError (status : nat) (error : string).

(** [link.findUnique({ where: { id } })]. *)
Definition link_findUnique_id (i : Id) : M (option Link.t) :=
  fun s => (Ret (List.find (has_id i) (links s)), s).

(** [`${protocol}://${host}/s/${code}`]. *)
Definition short_url (protocol host code : string) : string :=
  protocol +:+ "://" +:+ host +:+ "/s/" +:+ code.

(** [app.get('/api/links/:id/qr')]; [toDataURL] is [QRCode.toDataURL],
    which returns a data URI or throws, and [protocol] and [host] are
    [req.protocol] and [req.get('host')]. *)
Definition get_api_links_id_qr (toDataURL : string -> Outcome string)
    (protocol host : string) (i : Id) : M QrResponse :=
  try_catch
    (let* link := link_findUnique_id i in
     match link with
     | None => ret (QrError 404 "Link not found")
     | Some link =>
         let shortUrl := short_url protocol host (Link.shortCode link) in
         let* qrCode := (fun s => (toDataURL shortUrl, s)) in
         ret (QrJson qrCode)
     end)
    (fun _ => ret (QrError 500 "Internal server error")).

(** ** The client side: [LinkShortener], [LinksList], [useApi] *)



(** [link.customAlias || link.shortCode], the code of the short URL that
    [LinkShortener] and [LinksList] show. *)
Definition display_code (l : Link.t) : string :=
  alias_or (Link.customAlias l) (Link.shortCode l).

(** The decimal digits of a non-negative integer in front of [acc], as a
    template literal prints a safe integer; [fuel] bounds the number of
    digits. *)
Fixpoint decimal_digits (fuel : nat) (n : Z) (acc : string) : string :=
  match fuel with
  | O => acc
  | S f =>
      let acc' := String (ascii_of_nat (Z.to_nat (48 + n mod 10))) acc in
      if n <? 10 then acc' else decimal_digits f (n / 10) acc'
  end.

Definition number_to_string (n : Z) : string :=
  if n <? 0 then String "-" (decimal_digits (S (Z.to_nat (- n))) (- n) "")
  else decimal_digits (S (Z.to_nat n)) n "".

(** [useApi.getLinks(page, limit)]: the query of
    [/links?page=${page}&limit=${limit}]. *)
Definition getLinks_query (page limit : Z) : ListQuery :=
  mkListQuery (Some (number_to_string page)) (Some (number_to_string limit)).

(** ** Stores after several requests *)

(** Redirect requests to one code, handled one after the other. *)
Definition redirects (code : string) (reqs : list (DateTime * RequestMeta))
    (s : Store) : Store :=
  foldl (fun st r => snd (get_s_shortCode (fst r) code (snd r) st)) s reqs.

(** The links of a 200 answer of the list handler. *)
Definition listed (r : Response) : list Link.t :=
  match r with
  | Json _ (LinksBody ls _) => map fst ls
  | _ => []
  end.

(** The links that the list handler returns for the query of
    [getLinks(page, limit)]. *)
Definition listed_page (page limit : Z) (s : Store) : list Link.t :=
  match fst (get_api_links (getLinks_query page limit) s) with
  | Ret r => listed r
  | Throw _ => []
  end.

(** [Number.isSafeInteger]. *)
Definition is_safe_integer (n : Z) : Prop := Z.abs n <= 2 ^ 53 - 1.

(** What the schema's constraints and the handlers keep in the store:
    short codes are pairwise distinct, so are the aliases that are set;
    an alias that is set and not empty is also the short code of its
    link; every link is active; every click row refers to a link; and
    each counter is the number of click rows of its link. *)
Definition unique_codes (s : Store) : Prop :=
  NoDup (map Link.shortCode (links s)) /\ NoDup (omap Link.customAlias (links s)).

Definition alias_is_code (s : Store) : Prop :=
  Forall (fun l => Link.customAlias l = None
                   \/ Link.customAlias l = Some ""
                   \/ Link.customAlias l = Some (Link.shortCode l)) (links s).

Definition all_active (s : Store) : Prop :=
  Forall (fun l => Link.isActive l = true) (links s).

Definition clicks_refer (s : Store) : Prop :=
  Forall (fun c => In (Click.linkId c) (map Link.id (links s))) (clicks s).

Definition counters_exact (s : Store) : Prop :=
  Forall (fun l => Link.totalClicks l = count_clicks_of s l) (links s).

Definition store_inv (s : Store) : Prop :=
  wf s /\ unique_codes s /\ alias_is_code s /\ all_active s
  /\ clicks_refer s /\ counters_exact s.

(** ** Lookups *)

Lemma find_existsb {A} (f : A -> bool) (l : list A) (x : A) :
  List.find f l = Some x -> existsb f l = true.
Proof.
  intros H. apply find_some in H as [Hin Hf].
  apply existsb_exists. eauto.
Qed.

Lemma find_none_existsb {A} (f : A -> bool) (l : list A) :
  List.find f l = None <-> existsb f l = false.
Proof.
  induction l as [|a l IH]; simpl; [tauto|].
  destruct (f a); simpl; [split; discriminate | exact IH].
Qed.

Lemma has_id_self (l : Link.t) : has_id (Link.id l) l = true.
Proof. unfold has_id. by apply bool_decide_eq_true. Qed.

Lemma has_id_true (i : Id) (l : Link.t) : has_id i l = true <-> Link.id l = i.
Proof. unfold has_id. apply bool_decide_eq_true. Qed.

Lemma has_id_false (i : Id) (l : Link.t) : has_id i l = false <-> Link.id l <> i.
Proof. unfold has_id. apply bool_decide_eq_false. Qed.

Lemma In_existsb_has_id (ls : list Link.t) (l : Link.t) :
  In l ls -> existsb (has_id (Link.id l)) ls = true.
Proof. intros H. apply existsb_exists. exists l. split; [done | apply has_id_self]. Qed.

Lemma matches_code_true (code : string) (l : Link.t) :
  matches_code code l = true <->
  (Link.shortCode l = code \/ Link.customAlias l = Some code) /\ Link.isActive l = true.
Proof.
  unfold matches_code, has_shortCode, has_alias.
  rewrite andb_true_iff, orb_true_iff, !bool_decide_eq_true. tauto.
Qed.

(** Updating by id touches one row when ids are distinct. *)
Lemma map_update_unique (f : Link.t -> Link.t) (ls : list Link.t) (l : Link.t) :
  NoDup (map Link.id ls) -> In l ls ->
  exists l1 l2,
    ls = l1 ++ l :: l2
    /\ map (fun x => if has_id (Link.id l) x then f x else x) ls = l1 ++ f l :: l2.
Proof.
  intros Hnd Hin. apply in_split in Hin as (l1 & l2 & ->).
  exists l1, l2. split; [done|].
  rewrite map_app in Hnd. simpl in Hnd.
  apply NoDup_app in Hnd as (_ & Hdis & Hnd2).
  apply NoDup_cons in Hnd2 as [Hnot2 _].
  assert (Hid : forall xs : list Link.t,
             Link.id l ∉ map Link.id xs ->
             map (fun x => if has_id (Link.id l) x then f x else x) xs = xs).
  { induction xs as [|x xs IH]; simpl; [done|].
    intros Hx. apply not_elem_of_cons in Hx as [Hne Hx].
    rewrite IH by done.
    destruct (has_id (Link.id l) x) eqn:E; [|done].
    apply has_id_true in E. congruence. }
  rewrite map_app. simpl. rewrite has_id_self.
  rewrite (Hid l2) by done.
  rewrite (Hid l1); [done|].
  intros Hl1. apply (Hdis _ Hl1). left.
Qed.

(** ** The redirect handler *)

Lemma redirect_not_found (now : DateTime) (code : string) (meta : RequestMeta) (s : Store) :
  List.find (matches_code code) (links s) = None ->
  get_s_shortCode now code meta s = (Ret (Json 404 (ErrorBody "Link not found")), s).
Proof.
  intros H. unfold get_s_shortCode, try_catch, bind, link_findFirst_code.
  by rewrite H.
Qed.

Lemma redirect_expired (now : DateTime) (code : string) (meta : RequestMeta) (s : Store)
    (link : Link.t) :
  List.find (matches_code code) (links s) = Some link ->
  expired now link = true ->
  get_s_shortCode now code meta s = (Ret (Json 410 (ErrorBody "Link has expired")), s).
Proof.
  intros H He. unfold get_s_shortCode, try_catch, bind, link_findFirst_code.
  by rewrite H, He.
Qed.

Lemma redirect_found (now : DateTime) (code : string) (meta : RequestMeta) (s : Store)
    (link : Link.t) :
  List.find (matches_code code) (links s) = Some link ->
  expired now link = false ->
  get_s_shortCode now code meta s =
    (Ret (Redirect 302 (Link.originalUrl link)), with_click s now link meta).
Proof.
  intros H He.
  assert (Hin : In link (links s)) by (apply find_some in H; tauto).
  unfold get_s_shortCode, try_catch, bind, link_findFirst_code.
  rewrite H, He. unfold promise_all, click_create, link_update_increment.
  rewrite (In_existsb_has_id _ _ Hin). simpl.
  destruct (List.find (has_id (Link.id link)) (links s)) eqn:Hf; [done|].
  apply find_none_existsb in Hf. rewrite (In_existsb_has_id _ _ Hin) in Hf. discriminate.
Qed.

(** Whatever JSON answer the redirect handler gives (404, 410 or 500),
    it has written nothing. *)
Lemma redirect_json_keeps_store (now : DateTime) (code : string) (meta : RequestMeta)
    (s s' : Store) (status : nat) (b : Body) :
  get_s_shortCode now code meta s = (Ret (Json status b), s') -> s' = s.
Proof.
  destruct (List.find (matches_code code) (links s)) as [link|] eqn:Hf.
  - destruct (expired now link) eqn:He.
    + rewrite (redirect_expired _ _ _ _ _ Hf He). congruence.
    + rewrite (redirect_found _ _ _ _ _ Hf He). discriminate.
  - rewrite (redirect_not_found _ _ _ _ Hf). congruence.
Qed.

Ltac solve_wf :=
  split; [apply (bool_decide_unpack _); vm_compute; exact I
         | repeat constructor; simpl; lia].

(** C1: a redirect whose code resolves to an active link that has not
    expired answers 302 to the link's [originalUrl], adds 1 to the
    [totalClicks] of that link and of no other, and appends one click row
    that references the link and carries the request's ip, user agent and
    referer, the geo and device fields being unset. *)
Theorem redirect_records_one_click (now : DateTime) (code : string)
    (meta : RequestMeta) (s : Store) (link : Link.t) :
  wf s ->
  List.find (matches_code code) (links s) = Some link ->
  expired now link = false ->
  exists s' l1 l2 link' c,
    get_s_shortCode now code meta s = (Ret (Redirect 302 (Link.originalUrl link)), s')
    /\ Link.isActive link = true
    /\ links s = l1 ++ link :: l2
    /\ links s' = l1 ++ link' :: l2
    /\ Link.id link' = Link.id link
    /\ Link.totalClicks link' = Link.totalClicks link + 1
    /\ clicks s' = clicks s ++ [c]
    /\ Click.linkId c = Link.id link
    /\ Click.ip c = req_ip meta
    /\ Click.userAgent c = req_userAgent meta
    /\ Click.referer c = req_referer meta
    /\ Click.country c = None /\ Click.city c = None /\ Click.device c = None
    /\ Click.browser c = None /\ Click.os c = None.
Proof.
  intros [Hnd _] Hf He.
  pose proof (find_some _ _ Hf) as [Hin Hm].
  apply matches_code_true in Hm as [_ Hact].
  destruct (map_update_unique (increment_totalClicks now 1) _ _ Hnd Hin)
    as (l1 & l2 & Hl & Hmap).
  eexists _, l1, l2, (increment_totalClicks now 1 link), (recorded_click s now link meta).
  split; [apply (redirect_found _ _ _ _ _ Hf He)|].
  simpl. rewrite Hmap. repeat split; done.
Qed.

Lemma redirect_records_one_click_witness :
  wf store_one
  /\ exists s' l1 l2 link' c,
       get_s_shortCode 2000 "V1StGXR8" meta_curl store_one
         = (Ret (Redirect 302 (Link.originalUrl link_one)), s')
       /\ Link.isActive link_one = true
       /\ links store_one = l1 ++ link_one :: l2
       /\ links s' = l1 ++ link' :: l2
       /\ Link.id link' = Link.id link_one
       /\ Link.totalClicks link' = Link.totalClicks link_one + 1
       /\ clicks s' = clicks store_one ++ [c]
       /\ Click.linkId c = Link.id link_one
       /\ Click.ip c = req_ip meta_curl
       /\ Click.userAgent c = req_userAgent meta_curl
       /\ Click.referer c = req_referer meta_curl
       /\ Click.country c = None /\ Click.city c = None /\ Click.device c = None
       /\ Click.browser c = None /\ Click.os c = None.
Proof.
  split; [solve_wf|].
  apply (redirect_records_one_click 2000 "V1StGXR8" meta_curl store_one link_one);
    [solve_wf | reflexivity | reflexivity].
Defined.

(** C2: the lookup of the redirect handler returns an active link whose
    [shortCode] or [customAlias] is the code; the handler answers 404
    "Link not found" exactly when the store has no such link, and 410
    "Link has expired" when the link found has an [expiresAt] before the
    current time, although that link is in the store and active; neither
    answer changes the store. *)
Theorem resolve_not_found_or_expired (now : DateTime) (code : string)
    (meta : RequestMeta) (s : Store) :
  ((forall l, In l (links s) ->
      ~ ((Link.shortCode l = code \/ Link.customAlias l = Some code)
         /\ Link.isActive l = true))
   <-> get_s_shortCode now code meta s
       = (Ret (Json 404 (ErrorBody "Link not found")), s))
  /\ (forall link e,
        List.find (matches_code code) (links s) = Some link ->
        Link.expiresAt link = Some e ->
        e < now ->
        In link (links s)
        /\ (Link.shortCode link = code \/ Link.customAlias link = Some code)
        /\ Link.isActive link = true
        /\ get_s_shortCode now code meta s
           = (Ret (Json 410 (ErrorBody "Link has expired")), s)).
Proof.
  split.
  - split.
    + intros Hno. apply redirect_not_found.
      destruct (List.find (matches_code code) (links s)) as [l|] eqn:Hf; [|done].
      apply find_some in Hf as [Hin Hm]. apply matches_code_true in Hm.
      destruct (Hno l Hin Hm).
    + intros Hr l Hin Hm. apply matches_code_true in Hm.
      destruct (List.find (matches_code code) (links s)) as [l0|] eqn:Hf.
      * destruct (expired now l0) eqn:He.
        -- rewrite (redirect_expired _ _ _ _ _ Hf He) in Hr. discriminate.
        -- rewrite (redirect_found _ _ _ _ _ Hf He) in Hr. discriminate.
      * pose proof (find_none _ _ Hf l Hin). congruence.
  - intros link e Hf He Hlt.
    pose proof (find_some _ _ Hf) as [Hin Hm].
    apply matches_code_true in Hm as [Hc Ha].
    repeat split; try done.
    apply (redirect_expired _ _ _ _ link Hf).
    unfold expired. rewrite He. by apply Z.ltb_lt.
Qed.

Lemma resolve_not_found_or_expired_witness :
  get_s_shortCode 1000 "offcode1" meta_curl store_expired
    = (Ret (Json 404 (ErrorBody "Link not found")), store_expired)
  /\ get_s_shortCode 1000 "promo" meta_curl store_expired
     = (Ret (Json 410 (ErrorBody "Link has expired")), store_expired).
Proof.
  split.
  - apply (proj1 (resolve_not_found_or_expired 1000 "offcode1" meta_curl store_expired)).
    intros l Hin [Hc Ha]. simpl in Hin.
    destruct Hin as [<-|[<-|[]]]; simpl in *; [|discriminate].
    destruct Hc; discriminate.
  - apply (proj2 (resolve_not_found_or_expired 1000 "promo" meta_curl store_expired)
             (Link.mk 0%nat "https://example.com/old" "oldcode1" (Some "promo")
                None None 100 100 (Some 500) true 0) 500);
      [reflexivity | reflexivity | lia].
Defined.

(** C10: a redirect that fails, because no active link matches the code
    or because the link found has expired, answers 404 or 410 and leaves
    the store as it was: no click row, no counter touched. *)
Theorem failed_redirect_leaves_store (now : DateTime) (code : string)
    (meta : RequestMeta) (s : Store) :
  List.find (matches_code code) (links s) = None
  \/ (exists link, List.find (matches_code code) (links s) = Some link
                   /\ expired now link = true) ->
  exists status msg s',
    get_s_shortCode now code meta s = (Ret (Json status (ErrorBody msg)), s')
    /\ (status = 404 \/ status = 410)%nat
    /\ s' = s
    /\ clicks s' = clicks s
    /\ map Link.totalClicks (links s') = map Link.totalClicks (links s).
Proof.
  intros [Hf | (link & Hf & He)].
  - exists 404%nat, "Link not found", s.
    rewrite (redirect_not_found _ _ _ _ Hf). tauto.
  - exists 410%nat, "Link has expired", s.
    rewrite (redirect_expired _ _ _ _ _ Hf He). tauto.
Qed.

Lemma failed_redirect_leaves_store_witness :
  exists status msg s',
    get_s_shortCode 1000 "promo" meta_curl store_expired
      = (Ret (Json status (ErrorBody msg)), s')
    /\ (status = 404 \/ status = 410)%nat
    /\ s' = store_expired
    /\ clicks s' = clicks store_expired
    /\ map Link.totalClicks (links s') = map Link.totalClicks (links store_expired).
Proof.
  apply (failed_redirect_leaves_store 1000 "promo" meta_curl store_expired).
  right. eexists. split; reflexivity.
Defined.

(** ** The create handler *)

Section Create.
Context {P : Platform}.

Lemma create_invalid_input (now : DateTime) (nanoid8 : string)
    (body : CreateLinkRequest) (s : Store) :
  createLinkSchema_ok body = false ->
  post_api_links now nanoid8 body s
    = (Ret (Json 400 (ErrorBody "Invalid input data")), s).
Proof.
  intros H. unfold post_api_links, try_catch, bind, createLinkSchema_parse.
  by rewrite H.
Qed.

Lemma create_alias_taken (now : DateTime) (nanoid8 : string)
    (body : CreateLinkRequest) (s : Store) (a : string) :
  createLinkSchema_ok body = true ->
  isValidUrl (formatUrl (rq_originalUrl body)) = true ->
  rq_customAlias body = Some a ->
  a <> "" ->
  existsb (has_alias a) (links s) = true ->
  post_api_links now nanoid8 body s
    = (Ret (Json 400 (ErrorBody "Custom alias already exists")), s).
Proof.
  intros Hok Hurl Ha Hne Hex.
  unfold post_api_links, try_catch, bind, createLinkSchema_parse.
  rewrite Hok. simpl. rewrite Hurl, Ha. simpl.
  destruct (String.eqb_spec a ""); [done|]. simpl.
  unfold link_findUnique_customAlias.
  destruct (List.find (has_alias a) (links s)) eqn:Hf; [done|].
  apply find_none_existsb in Hf. congruence.
Qed.

Lemma create_reaches_insert (now : DateTime) (nanoid8 : string)
    (body : CreateLinkRequest) (s : Store) :
  createLinkSchema_ok body = true ->
  isValidUrl (formatUrl (rq_originalUrl body)) = true ->
  alias_free body s ->
  post_api_links now nanoid8 body s =
    match expiry_date (rq_expiresAt body) s with
    | (Ret expires, _) =>
        if unique_violation (create_input nanoid8 body expires) s
        then (Ret internal_error, s)
        else (Ret (Json 201 (LinkBody (created_link s now nanoid8 body expires))),
              with_link s (created_link s now nanoid8 body expires))
    | (Throw _, _) => (Ret internal_error, s)
    end.
Proof.
  intros Hok Hurl Hfree.
  unfold post_api_links, try_catch, bind, createLinkSchema_parse.
  rewrite Hok. simpl. rewrite Hurl. simpl.
  assert (Hex : (match rq_customAlias body with
                 | Some a => if truthy (rq_customAlias body)
                             then link_findUnique_customAlias a else ret None
                 | None => ret None
                 end) s = (Ret None, s)).
  { unfold alias_free in Hfree. destruct (rq_customAlias body) as [a|]; [|done].
    simpl. destruct (String.eqb_spec a ""); [done|]. simpl.
    destruct Hfree as [?|Hfree]; [done|].
    unfold link_findUnique_customAlias.
    apply find_none_existsb in Hfree. by rewrite Hfree. }
  rewrite Hex.
  assert (Hexp : exists o, expiry_date (rq_expiresAt body) s = (o, s)
                           /\ o <> Throw ZodError).
  { unfold expiry_date. destruct (rq_expiresAt body) as [e|]; [|by eexists].
    destruct (truthy (Some e)); [|by eexists].
    destruct (Date_parse e); by eexists. }
  destruct Hexp as (o & Hexp & Hz). rewrite Hexp.
  destruct o as [expires|e]; [|by destruct e].
  unfold link_create, create_input, created_link, with_link.
  by destruct (unique_violation _ s).
Qed.

(** Every answer of the create handler: an error that leaves the store
    as it was, or 201 with the inserted row. *)
Lemma create_inv (now : DateTime) (nanoid8 : string)
    (body : CreateLinkRequest) (s : Store) :
  (exists status msg,
      post_api_links now nanoid8 body s = (Ret (Json status (ErrorBody msg)), s)
      /\ (status = 400 \/ status = 500)%nat)
  \/ (exists expires,
        unique_violation (create_input nanoid8 body expires) s = false
        /\ post_api_links now nanoid8 body s
           = (Ret (Json 201 (LinkBody (created_link s now nanoid8 body expires))),
              with_link s (created_link s now nanoid8 body expires))).
Proof.
  destruct (createLinkSchema_ok body) eqn:Hok.
  2:{ left. exists 400%nat, "Invalid input data". split; [|tauto].
      by apply create_invalid_input. }
  destruct (isValidUrl (formatUrl (rq_originalUrl body))) eqn:Hurl.
  2:{ left. exists 400%nat, "Invalid URL". split; [|tauto].
      unfold post_api_links, try_catch, bind, createLinkSchema_parse.
      rewrite Hok. simpl. by rewrite Hurl. }
  assert (Hcase : alias_free body s
                  \/ exists a, rq_customAlias body = Some a /\ a <> ""
                               /\ existsb (has_alias a) (links s) = true).
  { unfold alias_free. destruct (rq_customAlias body) as [a|]; [|by left].
    destruct (String.eqb_spec a ""); [left; by left|].
    destruct (existsb (has_alias a) (links s)) eqn:E; [right; eauto | left; by right]. }
  destruct Hcase as [Hfree | (a & Ha & Hne & Hex)].
  2:{ left. exists 400%nat, "Custom alias already exists". split; [|tauto].
      by apply (create_alias_taken _ _ _ _ a). }
  rewrite (create_reaches_insert _ _ _ _ Hok Hurl Hfree).
  destruct (expiry_date (rq_expiresAt body) s) as [[expires|e] s0].
  2:{ left. exists 500%nat, "Internal server error". split; [done | tauto]. }
  destruct (unique_violation (create_input nanoid8 body expires) s) eqn:Hu.
  { left. exists 500%nat, "Internal server error". split; [done | tauto]. }
  right. exists expires. by split.
Qed.
End Create.

(** ** The read-only handlers *)

Lemma list_keeps_store (q : ListQuery) (s : Store) : snd (get_api_links q s) = s.
Proof.
  unfold get_api_links, try_catch, bind, promise_all, link_findMany_page, link_count.
  by destruct (page_of _ _ _).
Qed.

Lemma get_keeps_store (i : Id) (s : Store) : snd (get_api_links_id i s) = s.
Proof.
  unfold get_api_links_id, try_catch, bind, link_findUnique_with_clicks.
  by destruct (List.find _ _).
Qed.

Lemma overview_answer (now : DateTime) (s : Store) :
  get_api_analytics_overview now s =
    (Ret (Json 200 (AnalyticsBody
       (mkAnalytics
          (Z.of_nat (length (links s)))
          (Z.of_nat (length (clicks s)))
          (Z.of_nat (length (List.filter
                       (fun c => now - seven_days <=? Click.createdAt c) (clicks s))))
          (map select_top (take 5 (merge_sort more_clicked (links s))))))), s).
Proof. reflexivity. Qed.

(** ** Invariants of the reachable stores *)

Lemma sum_totalClicks_app (l1 l2 : list Link.t) :
  sum_totalClicks (l1 ++ l2) = sum_totalClicks l1 + sum_totalClicks l2.
Proof.
  unfold sum_totalClicks. induction l1 as [|x l1 IH]; simpl; [done|].
  rewrite IH. lia.
Qed.

Lemma wf_with_link (s : Store) (l : Link.t) :
  wf s -> Link.id l = nextId s -> wf (with_link s l).
Proof.
  intros [Hnd Hlt] Hid. split; simpl.
  - rewrite map_app. simpl. apply NoDup_app. split_and!; [done | | apply NoDup_singleton].
    intros i Hi Hi'. apply list_elem_of_singleton in Hi'. subst i.
    apply list_elem_of_fmap in Hi as (x & Hx & Hin).
    rewrite Forall_forall in Hlt. specialize (Hlt x Hin). lia.
  - apply Forall_app. split.
    + eapply Forall_impl; [exact Hlt|]. simpl. lia.
    + constructor; [lia | constructor].
Qed.

Lemma consistent_with_link (s : Store) (l : Link.t) :
  consistent s -> Link.totalClicks l = 0 -> consistent (with_link s l).
Proof.
  unfold consistent. simpl. intros H H0.
  rewrite sum_totalClicks_app. unfold sum_totalClicks at 2. simpl. lia.
Qed.

Lemma wf_with_click (s : Store) (now : DateTime) (link : Link.t) (meta : RequestMeta) :
  wf s -> wf (with_click s now link meta).
Proof.
  intros [Hnd Hlt].
  assert (Hids : map Link.id (links (with_click s now link meta)) = map Link.id (links s)).
  { simpl. rewrite map_map. apply map_ext. intros x. by destruct (has_id _ x). }
  split.
  - by rewrite Hids.
  - simpl. apply Forall_map. eapply Forall_impl; [exact Hlt|].
    intros x Hx. simpl in *. destruct (has_id _ x); simpl; lia.
Qed.

Lemma consistent_with_click (s : Store) (now : DateTime) (link : Link.t)
    (meta : RequestMeta) :
  wf s -> In link (links s) -> consistent s -> consistent (with_click s now link meta).
Proof.
  intros [Hnd _] Hin Hc. unfold consistent in *. simpl.
  destruct (map_update_unique (increment_totalClicks now 1) _ _ Hnd Hin)
    as (l1 & l2 & Hl & ->).
  rewrite Hl in Hc. rewrite length_app. simpl.
  rewrite sum_totalClicks_app in *. unfold sum_totalClicks in *. simpl in *. lia.
Qed.

Section Reachable.
Context {P : Platform}.

(** One request keeps ids distinct and the counters in step with the
    click rows. *)
Lemma handle_preserves (now : DateTime) (r : Request) (s : Store) :
  wf s /\ consistent s -> wf (snd (handle now r s)) /\ consistent (snd (handle now r s)).
Proof.
  intros [Hwf Hc]. destruct r as [nanoid8 body | code meta | q | i |]; unfold handle.
  - destruct (create_inv now nanoid8 body s)
      as [(st & msg & -> & _) | (expires & _ & ->)]; simpl; [done|].
    split; [by apply wf_with_link | by apply consistent_with_link].
  - destruct (List.find (matches_code code) (links s)) as [link|] eqn:Hf.
    + destruct (expired now link) eqn:He.
      * by rewrite (redirect_expired _ _ _ _ _ Hf He).
      * rewrite (redirect_found _ _ _ _ _ Hf He). simpl.
        split; [by apply wf_with_click|].
        apply consistent_with_click; try done.
        apply find_some in Hf. tauto.
    + by rewrite (redirect_not_found _ _ _ _ Hf).
  - by rewrite list_keeps_store.
  - by rewrite get_keeps_store.
  - by rewrite overview_answer.
Qed.

Lemma reachable_invariant (s : Store) : reachable s -> wf s /\ consistent s.
Proof.
  induction 1 as [|s now r _ IH].
  - split; [split; simpl; constructor | reflexivity].
  - by apply handle_preserves.
Qed.

(** C3: in every store that the server reaches from the empty database
    by create, redirect, list, get and overview requests, the overview
    answers with [totalClicks] equal to the number of click rows, and
    that number is the sum of the links' [totalClicks] counters. *)
Theorem overview_totalClicks_consistent (now : DateTime) (s : Store) :
  reachable s ->
  exists a,
    get_api_analytics_overview now s = (Ret (Json 200 (AnalyticsBody a)), s)
    /\ an_totalClicks a = Z.of_nat (length (clicks s))
    /\ Z.of_nat (length (clicks s)) = sum_totalClicks (links s).
Proof.
  intros Hr. apply reachable_invariant in Hr as [_ Hc].
  eexists. split; [apply overview_answer|]. split; [reflexivity | exact Hc].
Qed.
End Reachable.

Lemma store_clicked_reachable : reachable (P := scheme_platform) store_clicked.
Proof.
  exact (reachable_handle _ 2000 (RedirectReq "V1StGXR8" meta_curl)
           (reachable_handle _ 1000 (CreateReq "V1StGXR8" body_plain) reachable_empty)).
Defined.

Lemma overview_totalClicks_consistent_witness :
  exists a,
    get_api_analytics_overview 3000 store_clicked
      = (Ret (Json 200 (AnalyticsBody a)), store_clicked)
    /\ an_totalClicks a = Z.of_nat (length (clicks store_clicked))
    /\ Z.of_nat (length (clicks store_clicked)) = sum_totalClicks (links store_clicked).
Proof.
  apply (overview_totalClicks_consistent (P := scheme_platform) 3000 store_clicked).
  exact store_clicked_reachable.
Defined.

(** ** Creating links *)

Lemma existsb_has_alias (a : string) (ls : list Link.t) :
  existsb (has_alias a) ls = true <-> exists l, In l ls /\ Link.customAlias l = Some a.
Proof.
  rewrite existsb_exists. unfold has_alias.
  split; intros (l & Hin & H); exists l; split; try done;
    by apply (bool_decide_eq_true _).
Qed.

Lemma existsb_has_shortCode (c : string) (ls : list Link.t) :
  existsb (has_shortCode c) ls = true <-> exists l, In l ls /\ Link.shortCode l = c.
Proof.
  rewrite existsb_exists. unfold has_shortCode.
  split; intros (l & Hin & H); exists l; split; try done;
    by apply (bool_decide_eq_true _).
Qed.

Lemma not_existsb_has_alias (a : string) (ls : list Link.t) :
  (forall l, In l ls -> Link.customAlias l <> Some a) -> existsb (has_alias a) ls = false.
Proof.
  intros H. apply not_true_is_false. intros He.
  apply existsb_has_alias in He as (l & Hin & Hl). by apply (H l).
Qed.

Lemma not_existsb_has_shortCode (c : string) (ls : list Link.t) :
  (forall l, In l ls -> Link.shortCode l <> c) -> existsb (has_shortCode c) ls = false.
Proof.
  intros H. apply not_true_is_false. intros He.
  apply existsb_has_shortCode in He as (l & Hin & Hl). by apply (H l).
Qed.

Lemma alias_or_nonempty (a nanoid8 : string) : a <> "" -> alias_or (Some a) nanoid8 = a.
Proof. intros H. unfold alias_or. simpl. by destruct (String.eqb_spec a ""). Qed.

Lemma find_app_none {A} (f : A -> bool) (l1 l2 : list A) :
  List.find f l1 = None -> List.find f (l1 ++ l2) = List.find f l2.
Proof.
  induction l1 as [|x l1 IH]; simpl; [done|].
  destruct (f x); [discriminate | exact IH].
Qed.

Section CreateClaims.
Context {P : Platform}.

(** The date of a present [expiresAt] that is a valid date. *)
Lemma expiry_date_valid (body : CreateLinkRequest) (s : Store) :
  (forall e, rq_expiresAt body = Some e -> is_Some (Date_parse e)) ->
  exists expires, expiry_date (rq_expiresAt body) s = (Ret expires, s).
Proof.
  intros H. unfold expiry_date. destruct (rq_expiresAt body) as [e|]; [|by eexists].
  destruct (truthy (Some e)); [|by eexists].
  destruct (H e eq_refl) as [t ->]. by eexists.
Qed.

(** What is stored for a URL that passes the schema: [formatUrl] of it,
    with no clicks. *)
Lemma create_stores_formatted_url (now : DateTime) (nanoid8 : string)
    (body : CreateLinkRequest) (s s' : Store) (l : Link.t) :
  post_api_links now nanoid8 body s = (Ret (Json 201 (LinkBody l)), s') ->
  Link.originalUrl l = formatUrl (rq_originalUrl body)
  /\ Link.totalClicks l = 0 /\ Link.isActive l = true
  /\ links s' = links s ++ [l].
Proof.
  intros H. destruct (create_inv now nanoid8 body s)
    as [(st & msg & H' & _) | (expires & _ & H')]; rewrite H' in H.
  - discriminate.
  - injection H as <- <-. by simpl.
Qed.

(** C4 (the handler departs from it): the schema checks the raw
    [originalUrl] before [formatUrl] is applied, so an input that is
    not a URL on its own, such as example.com/a/b, is answered 400
    "Invalid input data" and nothing is stored, although [formatUrl]
    turns it into https://example.com/a/b. *)
Theorem create_rejects_schemeless_url (now : DateTime) (nanoid8 : string) (s : Store) :
  zod_url "example.com/a/b" = false ->
  formatUrl "example.com/a/b" = "https://example.com/a/b"
  /\ post_api_links now nanoid8 body_schemeless s
     = (Ret (Json 400 (ErrorBody "Invalid input data")), s).
Proof.
  intros H. split; [reflexivity|].
  apply create_invalid_input. unfold createLinkSchema_ok. simpl. by rewrite H.
Qed.

(** C5, amended: for a request that passes validation and carries a
    non-empty alias, the handler answers 400 "Custom alias already
    exists" and stores nothing when a link has that [customAlias]; when
    no link has it as [customAlias] or as [shortCode] and the
    [expiresAt], if present, is a valid date, it answers 201, and from
    then on the lookup by the alias finds the new link, to which the
    redirect handler redirects as long as it has not expired. *)
Theorem create_alias_conflict_or_roundtrip (now : DateTime) (nanoid8 : string)
    (body : CreateLinkRequest) (s : Store) (a : string) :
  createLinkSchema_ok body = true ->
  isValidUrl (formatUrl (rq_originalUrl body)) = true ->
  rq_customAlias body = Some a ->
  a <> "" ->
  ((exists l0, In l0 (links s) /\ Link.customAlias l0 = Some a) ->
   post_api_links now nanoid8 body s
     = (Ret (Json 400 (ErrorBody "Custom alias already exists")), s))
  /\ ((forall l0, In l0 (links s) ->
         Link.customAlias l0 <> Some a /\ Link.shortCode l0 <> a) ->
      (forall e, rq_expiresAt body = Some e -> is_Some (Date_parse e)) ->
      exists l s',
        post_api_links now nanoid8 body s = (Ret (Json 201 (LinkBody l)), s')
        /\ links s' = links s ++ [l]
        /\ Link.customAlias l = Some a
        /\ List.find (matches_code a) (links s') = Some l
        /\ forall now' meta,
             expired now' l = false ->
             fst (get_s_shortCode now' a meta s')
               = Ret (Redirect 302 (Link.originalUrl l))).
Proof.
  intros Hok Hurl Ha Hne. split.
  - intros Hex. apply (create_alias_taken _ _ _ _ a); try done.
    by apply existsb_has_alias.
  - intros Hfresh Hdate.
    assert (Hal : existsb (has_alias a) (links s) = false).
    { apply not_existsb_has_alias. intros l0 Hin. by apply Hfresh. }
    assert (Hsc : existsb (has_shortCode a) (links s) = false).
    { apply not_existsb_has_shortCode. intros l0 Hin. by apply Hfresh. }
    assert (Hfree : alias_free body s) by (unfold alias_free; rewrite Ha; by right).
    destruct (expiry_date_valid body s Hdate) as [expires Hexp].
    pose proof (create_reaches_insert now nanoid8 body s Hok Hurl Hfree) as Hc.
    rewrite Hexp in Hc.
    assert (Hu : unique_violation (create_input nanoid8 body expires) s = false).
    { unfold unique_violation, create_input. simpl.
      rewrite Ha, (alias_or_nonempty _ _ Hne), Hal, Hsc. done. }
    rewrite Hu in Hc.
    set (l := created_link s now nanoid8 body expires) in *.
    assert (Hfind : List.find (matches_code a) (links (with_link s l)) = Some l).
    { simpl. rewrite find_app_none.
      - simpl. replace (matches_code a l) with true; [done|].
        symmetry. apply matches_code_true. simpl.
        rewrite Ha, (alias_or_nonempty _ _ Hne). tauto.
      - apply find_none_existsb. apply not_true_is_false. intros He.
        apply existsb_exists in He as (l0 & Hin & Hm).
        apply matches_code_true in Hm as [[H|H] _];
          destruct (Hfresh l0 Hin); congruence. }
    exists l, (with_link s l). split_and!; try done.
    intros now' meta He. by rewrite (redirect_found _ _ _ _ _ Hfind He).
Qed.

(** C6, amended: when [nanoid(8)] returns a code that a link already
    has as [shortCode], a request without an alias that passes
    validation runs into the unique constraint of the insert; the
    handler's catch-all answers 500 "Internal server error", and
    nothing is stored. *)
Theorem create_code_collision_is_internal_error (now : DateTime) (nanoid8 : string)
    (body : CreateLinkRequest) (s : Store) :
  createLinkSchema_ok body = true ->
  isValidUrl (formatUrl (rq_originalUrl body)) = true ->
  rq_customAlias body = None ->
  (exists l0, In l0 (links s) /\ Link.shortCode l0 = nanoid8) ->
  post_api_links now nanoid8 body s
    = (Ret (Json 500 (ErrorBody "Internal server error")), s).
Proof.
  intros Hok Hurl Ha Hex.
  assert (Hfree : alias_free body s) by (unfold alias_free; by rewrite Ha).
  rewrite (create_reaches_insert now nanoid8 body s Hok Hurl Hfree).
  destruct (expiry_date (rq_expiresAt body) s) as [[expires|e] s0]; [|done].
  replace (unique_violation (create_input nanoid8 body expires) s) with true; [done|].
  symmetry. unfold unique_violation, create_input. simpl. rewrite Ha. simpl.
  apply orb_true_iff. left. by apply existsb_has_shortCode.
Qed.

(** C7 (the handler departs from it): the form's [validateForm] flags
    an alias of one or two characters, but the schema of the handler
    has no minimum length: such an alias, when free, is accepted with
    201 and the link is stored under it. *)
Theorem create_accepts_short_alias (now : DateTime) (nanoid8 : string)
    (body : CreateLinkRequest) (s : Store) (a : string) :
  createLinkSchema_ok body = true ->
  isValidUrl (formatUrl (rq_originalUrl body)) = true ->
  rq_customAlias body = Some a ->
  a <> "" ->
  (String.length a < 3)%nat ->
  rq_expiresAt body = None ->
  (forall l0, In l0 (links s) ->
     Link.customAlias l0 <> Some a /\ Link.shortCode l0 <> a) ->
  In "customAlias" (validateForm now (rq_originalUrl body) a "")
  /\ exists l,
       post_api_links now nanoid8 body s
         = (Ret (Json 201 (LinkBody l)), with_link s l)
       /\ Link.shortCode l = a
       /\ Link.customAlias l = Some a.
Proof.
  intros Hok Hurl Ha Hne Hlen Hexp Hfresh. split.
  - unfold validateForm. apply in_or_app. right. apply in_or_app. left.
    simpl. destruct (String.eqb_spec a ""); [done|]. simpl.
    replace (String.length a <? 3)%nat with true; [by left|].
    symmetry. by apply Nat.ltb_lt.
  - assert (Hfree : alias_free body s).
    { unfold alias_free. rewrite Ha. right.
      apply not_existsb_has_alias. intros l0 Hin. by apply Hfresh. }
    pose proof (create_reaches_insert now nanoid8 body s Hok Hurl Hfree) as Hc.
    rewrite Hexp in Hc. simpl in Hc.
    assert (Hu : unique_violation (create_input nanoid8 body None) s = false).
    { unfold unique_violation, create_input. simpl.
      rewrite Ha, (alias_or_nonempty _ _ Hne).
      rewrite not_existsb_has_alias, not_existsb_has_shortCode; try done;
        intros l0 Hin; by apply Hfresh. }
    rewrite Hu in Hc. eexists. split; [exact Hc|]. simpl.
    by rewrite Ha, (alias_or_nonempty _ _ Hne).
Qed.

(** C9, amended: when a create request with a non-empty alias is
    answered 201, the stored link has that alias as its [shortCode] and
    as its [customAlias]; the generated code is not used. *)
Theorem create_alias_is_short_code (now : DateTime) (nanoid8 : string)
    (body : CreateLinkRequest) (s s' : Store) (a : string) (l : Link.t) :
  rq_customAlias body = Some a ->
  a <> "" ->
  post_api_links now nanoid8 body s = (Ret (Json 201 (LinkBody l)), s') ->
  Link.shortCode l = a
  /\ Link.customAlias l = Some a
  /\ links s' = links s ++ [l].
Proof.
  intros Ha Hne H. destruct (create_inv now nanoid8 body s)
    as [(st & msg & H' & _) | (expires & _ & H')]; rewrite H' in H.
  - discriminate.
  - injection H as <- <-. simpl. by rewrite Ha, (alias_or_nonempty _ _ Hne).
Qed.
End CreateClaims.

(** ** The create claims on the sample stores *)

Lemma create_rejects_schemeless_url_witness :
  zod_url (Platform := scheme_platform) "example.com/a/b" = false
  /\ formatUrl "example.com/a/b" = "https://example.com/a/b"
  /\ post_api_links (P := scheme_platform) 1000 "V1StGXR8" body_schemeless empty_store
     = (Ret (Json 400 (ErrorBody "Invalid input data")), empty_store).
Proof.
  split; [reflexivity|].
  apply (create_rejects_schemeless_url (P := scheme_platform) 1000 "V1StGXR8" empty_store).
  reflexivity.
Defined.

Lemma create_alias_conflict_or_roundtrip_witness :
  post_api_links (P := scheme_platform) 3000 "V1StGXR8" (body_alias "docs") store_docs
    = (Ret (Json 400 (ErrorBody "Custom alias already exists")), store_docs)
  /\ exists l s',
       post_api_links (P := scheme_platform) 3000 "V1StGXR9" (body_alias "docs") store_one
         = (Ret (Json 201 (LinkBody l)), s')
       /\ links s' = links store_one ++ [l]
       /\ Link.customAlias l = Some "docs"
       /\ List.find (matches_code "docs") (links s') = Some l
       /\ forall now' meta,
            expired now' l = false ->
            fst (get_s_shortCode now' "docs" meta s')
              = Ret (Redirect 302 (Link.originalUrl l)).
Proof.
  split.
  - apply (proj1 (create_alias_conflict_or_roundtrip (P := scheme_platform)
                    3000 "V1StGXR8" (body_alias "docs") store_docs "docs"
                    eq_refl eq_refl eq_refl ltac:(discriminate))).
    eexists. split; [left; reflexivity | reflexivity].
  - apply (proj2 (create_alias_conflict_or_roundtrip (P := scheme_platform)
                    3000 "V1StGXR9" (body_alias "docs") store_one "docs"
                    eq_refl eq_refl eq_refl ltac:(discriminate))).
    + intros l0 [<-|[]]. split; discriminate.
    + intros e [= <-]. eexists. reflexivity.
Defined.

(** C5 as stated fails: no link of [store_one] has the alias "V1StGXR8",
    the request is valid, and yet the create handler does not succeed,
    because a link has "V1StGXR8" as its [shortCode]: it answers 500 and
    stores nothing. *)
Lemma create_fresh_alias_can_fail :
  (forall l0, In l0 (links store_one) -> Link.customAlias l0 <> Some "V1StGXR8")
  /\ createLinkSchema_ok (P := scheme_platform) (body_alias "V1StGXR8") = true
  /\ isValidUrl (P := scheme_platform)
       (formatUrl (rq_originalUrl (body_alias "V1StGXR8"))) = true
  /\ post_api_links (P := scheme_platform) 3000 "k3J9x_Qa" (body_alias "V1StGXR8") store_one
     = (Ret (Json 500 (ErrorBody "Internal server error")), store_one)
  /\ List.find (matches_code "V1StGXR8") (links store_one) = Some link_one
  /\ Link.customAlias link_one = None.
Proof.
  split_and!; try reflexivity.
  intros l0 [<-|[]]. discriminate.
Qed.

Lemma create_code_collision_is_internal_error_witness :
  post_api_links (P := scheme_platform) 3000 "V1StGXR8" body_other store_one
    = (Ret (Json 500 (ErrorBody "Internal server error")), store_one).
Proof.
  apply (create_code_collision_is_internal_error (P := scheme_platform)
           3000 "V1StGXR8" body_other store_one eq_refl eq_refl eq_refl).
  exists link_one. split; [left; reflexivity | reflexivity].
Defined.

(** C6 as stated fails: with "V1StGXR8" already the [shortCode] of a
    link, a create request without an alias for which [nanoid(8)] returns
    "V1StGXR8" is answered 500, not with a 400 conflict. *)
Lemma create_code_collision_not_conflict :
  rq_customAlias body_other = None
  /\ (exists l0, In l0 (links store_one) /\ Link.shortCode l0 = "V1StGXR8")
  /\ post_api_links (P := scheme_platform) 3000 "V1StGXR8" body_other store_one
     = (Ret (Json 500 (ErrorBody "Internal server error")), store_one)
  /\ forall b s',
       post_api_links (P := scheme_platform) 3000 "V1StGXR8" body_other store_one
       <> (Ret (Json 400 b), s').
Proof.
  split_and!; try reflexivity.
  - exists link_one. split; [left; reflexivity | reflexivity].
  - intros b s'. discriminate.
Qed.

Lemma create_accepts_short_alias_witness :
  (String.length "ab" < 3)%nat
  /\ In "customAlias"
       (validateForm (P := scheme_platform) 3000 (rq_originalUrl body_short_alias) "ab" "")
  /\ exists l,
       post_api_links (P := scheme_platform) 3000 "V1StGXR9" body_short_alias store_one
         = (Ret (Json 201 (LinkBody l)), with_link store_one l)
       /\ Link.shortCode l = "ab"
       /\ Link.customAlias l = Some "ab".
Proof.
  split; [simpl; lia|].
  apply (create_accepts_short_alias (P := scheme_platform)
           3000 "V1StGXR9" body_short_alias store_one "ab"
           eq_refl eq_refl eq_refl ltac:(discriminate) ltac:(simpl; lia) eq_refl).
  intros l0 [<-|[]]. split; discriminate.
Defined.

Lemma create_alias_is_short_code_witness :
  exists l s',
    post_api_links (P := scheme_platform) 3000 "V1StGXR9" body_short_alias store_one
      = (Ret (Json 201 (LinkBody l)), s')
    /\ Link.shortCode l = "ab"
    /\ Link.customAlias l = Some "ab"
    /\ links s' = links store_one ++ [l].
Proof.
  eexists _, _. split; [reflexivity|].
  apply (create_alias_is_short_code (P := scheme_platform)
           3000 "V1StGXR9" body_short_alias store_one _ "ab" _
           eq_refl ltac:(discriminate) eq_refl).
Defined.

(** C9 as stated fails: a request that supplies the empty string as its
    alias is accepted, the stored [customAlias] is the empty string, and
    the [shortCode] is the generated code. *)
Lemma create_empty_alias_gets_generated_code :
  exists l s',
    rq_customAlias body_empty_alias = Some ""
    /\ post_api_links (P := scheme_platform) 3000 "V1StGXR9" body_empty_alias store_one
       = (Ret (Json 201 (LinkBody l)), s')
    /\ Link.customAlias l = Some ""
    /\ Link.shortCode l = "V1StGXR9"
    /\ Some (Link.shortCode l) <> Link.customAlias l.
Proof.
  eexists _, _. split_and!; try reflexivity. simpl. discriminate.
Qed.

(** ** Listing links *)

Example parseInt_samples :
  parseInt None = NaN
  /\ parseInt (Some "") = NaN
  /\ parseInt (Some "abc") = NaN
  /\ parseInt (Some "0") = Num 0
  /\ parseInt (Some " 12px") = Num 12
  /\ parseInt (Some "-2") = Num (-2)
  /\ parseInt (Some "0x1f") = Num 31.
Proof. repeat split. Qed.

(** A no-break space before the digits is skipped, and an integer that
    is not a double is rounded to the nearest one. *)
Example parseInt_number_samples :
  parseInt (Some (String (ascii_of_nat 194) (String (ascii_of_nat 160) "2"))) = Num 2
  /\ parseInt (Some "9007199254740993") = Num 9007199254740992
  /\ parseInt (Some "9007199254740995") = Num 9007199254740996
  /\ parseInt (Some "99999999999999999999") = Num 100000000000000000000.
Proof. repeat split; by vm_compute. Qed.

#[local] Instance newer_trans : Transitive newer.
Proof. intros a b c. unfold newer. lia. Qed.

#[local] Instance newer_total : Total newer.
Proof. intros a b. unfold newer. lia. Qed.

Lemma StronglySorted_take {A} (R : relation A) (n : nat) (l : list A) :
  StronglySorted R l -> StronglySorted R (take n l).
Proof.
  intros H. rewrite <- (take_drop n l) in H. by apply StronglySorted_app_1_l in H.
Qed.

Lemma StronglySorted_drop {A} (R : relation A) (n : nat) (l : list A) :
  StronglySorted R l -> StronglySorted R (drop n l).
Proof.
  intros H. rewrite <- (take_drop n l) in H. by apply StronglySorted_app_1_r in H.
Qed.

Lemma StronglySorted_reverse {A} (R : relation A) `{!Transitive R} (l : list A) :
  StronglySorted R l -> StronglySorted (flip R) (reverse l).
Proof.
  intros H. apply Sorted_StronglySorted; [apply _|].
  apply Sorted_reverse. by apply StronglySorted_Sorted.
Qed.

Lemma elem_of_take_drop {A} (n k : nat) (l : list A) (x : A) :
  x ∈ take n (drop k l) -> x ∈ l.
Proof.
  intros H. eapply elem_of_sublist; [|apply sublist_drop].
  eapply elem_of_sublist; [exact H | apply sublist_take].
Qed.

(** A page of an ordered list is ordered and comes from the list. *)
Lemma page_of_sorted {A} (R : relation A) `{!Transitive R}
    (skip take_ : Z) (sorted page : list A) :
  StronglySorted R sorted ->
  page_of skip take_ sorted = Ret page ->
  StronglySorted R page /\ (forall x, In x page -> In x sorted).
Proof.
  intros Hs. unfold page_of.
  destruct (negb (fits_int64 skip) || negb (fits_int64 take_)); [discriminate|].
  destruct (skip <? 0); [discriminate|].
  destruct (0 <=? take_); intros [= <-].
  - split.
    + by apply StronglySorted_take, StronglySorted_drop.
    + intros x Hx. apply list_elem_of_In in Hx. apply list_elem_of_In.
      eapply elem_of_take_drop, Hx.
  - split.
    + apply (StronglySorted_reverse (flip R)).
      apply StronglySorted_take, StronglySorted_drop.
      by apply StronglySorted_reverse.
    + intros x Hx. apply list_elem_of_In in Hx. apply list_elem_of_In.
      rewrite elem_of_reverse in Hx. apply elem_of_take_drop in Hx.
      by rewrite elem_of_reverse in Hx.
Qed.

Lemma to_double_safe (n : Z) : is_safe_integer n -> to_double n = n.
Proof.
  unfold is_safe_integer, to_double. intros H.
  replace (Z.abs n <? 2 ^ 53) with true; [done|].
  symmetry. apply Z.ltb_lt. lia.
Qed.

Lemma fits_int64_safe (n : Z) : is_safe_integer n -> fits_int64 n = true.
Proof.
  unfold is_safe_integer, fits_int64. intros H.
  apply andb_true_iff. split; [apply Z.leb_le | apply Z.ltb_lt]; lia.
Qed.

Lemma take_clamp {A} (t : Z) (n : nat) (l : list A) :
  (length l <= n)%nat ->
  take (Z.to_nat (Z.min t (Z.of_nat n))) l = take (Z.to_nat t) l.
Proof.
  intros Hn. destruct (Z.le_gt_cases t (Z.of_nat n)).
  - by rewrite Z.min_l by lia.
  - rewrite Z.min_r by lia. rewrite !take_ge by lia. done.
Qed.

Lemma drop_clamp {A} (t : Z) (l : list A) :
  drop (Z.to_nat (Z.min t (Z.of_nat (length l)))) l = drop (Z.to_nat t) l.
Proof.
  destruct (Z.le_gt_cases t (Z.of_nat (length l))).
  - by rewrite Z.min_l by lia.
  - rewrite Z.min_r by lia. rewrite !drop_ge by lia. done.
Qed.

(** A page counted from the start of the order. *)
Lemma page_of_forward {A} (skip take_ : Z) (sorted : list A) :
  0 <= skip -> 0 <= take_ ->
  fits_int64 skip = true -> fits_int64 take_ = true ->
  page_of skip take_ sorted
  = Ret (take (Z.to_nat take_) (drop (Z.to_nat skip) sorted)).
Proof.
  intros Hs Ht Hfs Hft. unfold page_of. rewrite Hfs, Hft. simpl.
  replace (skip <? 0) with false by (symmetry; apply Z.ltb_ge; lia).
  replace (0 <=? take_) with true by (symmetry; apply Z.leb_le; lia).
  rewrite drop_clamp, take_clamp; [done|].
  rewrite length_drop. lia.
Qed.

(** [skip] for a positive page and limit in the range where Numbers are
    exact. *)
Lemma list_skip_safe (q : ListQuery) :
  0 < list_page q -> 0 < list_limit q ->
  is_safe_integer ((list_page q - 1) * list_limit q) ->
  list_skip q = (list_page q - 1) * list_limit q.
Proof.
  intros Hp Hl Hs. unfold list_skip.
  rewrite (to_double_safe (list_page q - 1)).
  - by apply to_double_safe.
  - unfold is_safe_integer in *. nia.
Qed.

Lemma list_answer (q : ListQuery) (s : Store) :
  get_api_links q s =
    match page_of (list_skip q) (list_limit q) (merge_sort newer (links s)) with
    | Ret page =>
        (Ret (Json 200
                (LinksBody (map (fun l => (l, count_clicks_of s l)) page)
                   (mkPagination (list_page q) (list_limit q)
                      (Z.of_nat (length (links s)))
                      (ceil_div (Z.of_nat (length (links s))) (list_limit q))))), s)
    | Throw _ => (Ret internal_error, s)
    end.
Proof.
  unfold get_api_links, try_catch, bind, promise_all, link_findMany_page, link_count.
  by destruct (page_of _ _ _).
Qed.

(** C8, amended: [page] and [limit] are 1 and 10 when the parameter is
    absent, has no leading integer or is 0, and are the Number that
    [parseInt] reads otherwise, negative ones included; every 200 answer
    of the list handler carries links of the store ordered by [createdAt]
    descending together with the total number of links; and for positive
    [page] and [limit], with [limit] and [(page - 1) * limit] safe
    integers, the answer is 200 with the [limit] links after the first
    [(page - 1) * limit] of the links in that order. *)
Theorem list_page_of_links (q : ListQuery) (s : Store) :
  (q_page q = None -> list_page q = 1)
  /\ (q_limit q = None -> list_limit q = 10)
  /\ (parseInt (q_page q) = NaN \/ parseInt (q_page q) = Num 0 -> list_page q = 1)
  /\ (parseInt (q_limit q) = NaN \/ parseInt (q_limit q) = Num 0 -> list_limit q = 10)
  /\ (forall z, parseInt (q_page q) = Num z -> z <> 0 -> list_page q = z)
  /\ (forall z, parseInt (q_limit q) = Num z -> z <> 0 -> list_limit q = z)
  /\ (forall ls p s',
        get_api_links q s = (Ret (Json 200 (LinksBody ls p)), s') ->
        s' = s
        /\ StronglySorted newer (map fst ls)
        /\ (forall l, In l (map fst ls) -> In l (links s))
        /\ pg_page p = list_page q
        /\ pg_limit p = list_limit q
        /\ pg_total p = Z.of_nat (length (links s)))
  /\ (0 < list_page q -> 0 < list_limit q ->
      is_safe_integer (list_limit q) ->
      is_safe_integer ((list_page q - 1) * list_limit q) ->
      exists ls p ordered,
        get_api_links q s = (Ret (Json 200 (LinksBody ls p)), s)
        /\ ordered ≡ₚ links s
        /\ StronglySorted newer ordered
        /\ map fst ls
           = take (Z.to_nat (list_limit q))
               (drop (Z.to_nat ((list_page q - 1) * list_limit q)) ordered)).
Proof.
  split_and!.
  - unfold list_page. by intros ->.
  - unfold list_limit. by intros ->.
  - unfold list_page. by intros [-> | ->].
  - unfold list_limit. by intros [-> | ->].
  - unfold list_page. intros z -> Hz. by destruct z.
  - unfold list_limit. intros z -> Hz. by destruct z.
  - intros ls p s' H. rewrite list_answer in H.
    destruct (page_of _ _ _) as [page|e] eqn:Hp; [|discriminate].
    injection H as <- <- <-. simpl.
    rewrite map_map. simpl. rewrite map_id.
    destruct (page_of_sorted newer _ _ _ _
                (StronglySorted_merge_sort newer (links s)) Hp) as [Hs Hin].
    split_and!; try done.
    intros l Hl. apply Hin in Hl. apply list_elem_of_In in Hl.
    apply list_elem_of_In. by rewrite merge_sort_Permutation in Hl.
  - intros Hpage Hlimit Hsl Hss. rewrite list_answer.
    rewrite (list_skip_safe q Hpage Hlimit Hss).
    rewrite page_of_forward;
      [| unfold is_safe_integer in Hss; nia | lia
       | by apply fits_int64_safe | by apply fits_int64_safe].
    eexists _, _, (merge_sort newer (links s)). split; [reflexivity|].
    split; [apply merge_sort_Permutation|].
    split; [apply StronglySorted_merge_sort; apply _|].
    rewrite map_map. simpl. by rewrite map_id.
Qed.

Lemma list_page_of_links_witness :
  list_page (mkListQuery None (Some "0")) = 1
  /\ list_limit (mkListQuery None (Some "0")) = 10
  /\ exists ls p ordered,
       get_api_links (mkListQuery None (Some "0")) store_clicked
         = (Ret (Json 200 (LinksBody ls p)), store_clicked)
       /\ ordered ≡ₚ links store_clicked
       /\ StronglySorted newer ordered
       /\ map fst ls
          = take (Z.to_nat (list_limit (mkListQuery None (Some "0"))))
              (drop (Z.to_nat ((list_page (mkListQuery None (Some "0")) - 1)
                               * list_limit (mkListQuery None (Some "0"))))
                 ordered).
Proof.
  pose proof (list_page_of_links (mkListQuery None (Some "0")) store_clicked)
    as (H1 & _ & _ & H4 & _ & _ & _ & H8).
  split; [apply H1; reflexivity|].
  split; [apply H4; right; reflexivity|].
  apply H8; [reflexivity | reflexivity | by vm_compute | by vm_compute].
Defined.

(** C8 as stated fails: a negative [page] or [limit] is not replaced by
    the default; for [page=-2&limit=-5] the handler answers 200 with
    that page and that limit. *)
Lemma list_negative_not_defaulted :
  parseInt (Some "-2") = Num (-2)
  /\ list_page (mkListQuery (Some "-2") (Some "-5")) = -2
  /\ list_limit (mkListQuery (Some "-2") (Some "-5")) = -5
  /\ list_page (mkListQuery (Some "-2") (Some "-5")) <> 1
  /\ list_limit (mkListQuery (Some "-2") (Some "-5")) <> 10
  /\ exists ls p,
       get_api_links (mkListQuery (Some "-2") (Some "-5")) store_clicked
         = (Ret (Json 200 (LinksBody ls p)), store_clicked)
       /\ pg_page p = -2
       /\ pg_limit p = -5.
Proof.
  split_and!; try reflexivity; try discriminate.
  eexists _, _. split_and!; reflexivity.
Qed.

(** ** [formatUrl] *)

(** X1: [formatUrl] returns its input when the input starts with
    http:// or https://, and the input behind https:// when it starts
    with neither; the result starts with one of the two, and formatting
    it again changes nothing. *)
Theorem formatUrl_idempotent (url : string) :
  (String.prefix "http://" url = true \/ String.prefix "https://" url = true ->
   formatUrl url = url)
  /\ (String.prefix "http://" url = false -> String.prefix "https://" url = false ->
      formatUrl url = "https://" +:+ url)
  /\ (String.prefix "http://" (formatUrl url) = true
      \/ String.prefix "https://" (formatUrl url) = true)
  /\ formatUrl (formatUrl url) = formatUrl url.
Proof.
  assert (Hp : String.prefix "https://" ("https://" +:+ url) = true)
    by (by destruct url).
  assert (Hfix : forall u, String.prefix "http://" u = true
                           \/ String.prefix "https://" u = true ->
                           formatUrl u = u).
  { intros u [H|H]; unfold formatUrl; rewrite H; simpl; by rewrite ?andb_false_r. }
  assert (Hadd : String.prefix "http://" url = false ->
                 String.prefix "https://" url = false ->
                 formatUrl url = "https://" +:+ url).
  { intros E1 E2. unfold formatUrl. by rewrite E1, E2. }
  split; [exact (Hfix url)|]. split; [exact Hadd|].
  destruct (String.prefix "http://" url) eqn:E1;
    [|destruct (String.prefix "https://" url) eqn:E2].
  - rewrite !(Hfix url) by tauto. tauto.
  - rewrite !(Hfix url) by tauto. tauto.
  - rewrite (Hadd eq_refl eq_refl), (Hfix _ (or_intror Hp)). tauto.
Qed.

Lemma formatUrl_idempotent_witness :
  formatUrl "http://example.com/a" = "http://example.com/a"
  /\ formatUrl "https://example.com/a" = "https://example.com/a"
  /\ formatUrl "example.com/a" = "https://" +:+ "example.com/a"
  /\ formatUrl "ftp://example.com/a" = "https://" +:+ "ftp://example.com/a".
Proof.
  split_and!.
  - apply (proj1 (formatUrl_idempotent "http://example.com/a")). by left.
  - apply (proj1 (formatUrl_idempotent "https://example.com/a")). by right.
  - by apply (proj1 (proj2 (formatUrl_idempotent "example.com/a"))).
  - by apply (proj1 (proj2 (formatUrl_idempotent "ftp://example.com/a"))).
Defined.

(** ** What every reachable store satisfies *)

Lemma bump_map {B} (g : Link.t -> B) (f : Link.t -> Link.t) (p : Link.t -> bool)
    (ls : list Link.t) :
  (forall x, g (f x) = g x) ->
  map g (map (fun x => if p x then f x else x) ls) = map g ls.
Proof.
  intros H. rewrite map_map. apply map_ext. intros x. by destruct (p x).
Qed.

Lemma bump_omap {B} (g : Link.t -> option B) (f : Link.t -> Link.t) (p : Link.t -> bool)
    (ls : list Link.t) :
  (forall x, g (f x) = g x) ->
  omap g (map (fun x => if p x then f x else x) ls) = omap g ls.
Proof.
  intros H. induction ls as [|x ls IH]; [done|].
  simpl. unfold omap in IH. rewrite IH. destruct (p x); by rewrite ?H.
Qed.

Lemma omap_app_alias (l1 l2 : list Link.t) :
  omap Link.customAlias (l1 ++ l2)
  = omap Link.customAlias l1 ++ omap Link.customAlias l2.
Proof. apply omap_app. Qed.

Lemma In_omap_alias (a : string) (ls : list Link.t) :
  a ∈ omap Link.customAlias ls -> existsb (has_alias a) ls = true.
Proof.
  intros H. apply list_elem_of_omap in H as (l & Hin & Hl).
  apply existsb_has_alias. exists l. split; [by apply list_elem_of_In | done].
Qed.

Lemma In_map_shortCode (c : string) (ls : list Link.t) :
  c ∈ map Link.shortCode ls -> existsb (has_shortCode c) ls = true.
Proof.
  intros H. apply list_elem_of_fmap in H as (l & Hc & Hin).
  apply existsb_has_shortCode. exists l. split; [by apply list_elem_of_In | done].
Qed.

Lemma count_clicks_of_app (s : Store) (c : Click.t) (ls : list Link.t) (n : Id)
    (l : Link.t) :
  count_clicks_of (mkStore ls (clicks s ++ [c]) n) l
  = count_clicks_of s l + (if bool_decide (Click.linkId c = Link.id l) then 1 else 0).
Proof.
  unfold count_clicks_of. simpl. rewrite List.filter_app, length_app. simpl.
  destruct (bool_decide (Click.linkId c = Link.id l)); simpl; lia.
Qed.

Lemma count_clicks_of_fresh (s : Store) (l : Link.t) :
  wf s -> clicks_refer s -> Link.id l = nextId s -> count_clicks_of s l = 0.
Proof.
  intros [_ Hlt] Hr Hid. unfold count_clicks_of.
  replace (List.filter _ (clicks s)) with (@nil Click.t); [done|].
  symmetry. unfold clicks_refer in Hr.
  induction (clicks s) as [|c cs IH]; simpl; [done|].
  apply Forall_cons in Hr as [Hc Hr].
  rewrite bool_decide_eq_false_2; [by apply IH|].
  intros Heq. apply in_map_iff in Hc as (x & Hx & Hin).
  apply list_elem_of_In in Hin.
  rewrite Forall_forall in Hlt. specialize (Hlt x Hin). simpl in Hlt. lia.
Qed.

Lemma store_inv_empty : store_inv empty_store.
Proof.
  unfold store_inv, wf, unique_codes, alias_is_code, all_active, clicks_refer,
    counters_exact. simpl. split_and!; constructor.
Qed.

Lemma store_inv_with_link (s : Store) (now : DateTime) (nanoid8 : string)
    (body : CreateLinkRequest) (expires : option DateTime) :
  store_inv s ->
  unique_violation (create_input nanoid8 body expires) s = false ->
  store_inv (with_link s (created_link s now nanoid8 body expires)).
Proof.
  intros (Hwf & [Hsc Hal] & Hac & Hact & Hr & Hce) Hu.
  unfold unique_violation, create_input in Hu. simpl in Hu.
  apply orb_false_iff in Hu as [Hu1 Hu2].
  set (l := created_link s now nanoid8 body expires).
  split_and!.
  - by apply wf_with_link.
  - split; simpl.
    + rewrite map_app. simpl. apply NoDup_app.
      split_and!; [done | | apply NoDup_singleton].
      intros c Hc Hc'. apply list_elem_of_singleton in Hc'. subst c.
      apply In_map_shortCode in Hc. congruence.
    + rewrite omap_app_alias. apply NoDup_app. split_and!; [done | |].
      * intros a Ha Ha'. simpl in Ha'.
        destruct (rq_customAlias body) as [a0|] eqn:E; simpl in Ha'.
        -- apply list_elem_of_singleton in Ha'. subst a0.
           apply In_omap_alias in Ha. congruence.
        -- by apply elem_of_nil in Ha'.
      * simpl. destruct (rq_customAlias body); simpl;
          [apply NoDup_singleton | apply NoDup_nil_2].
  - unfold alias_is_code. simpl. apply Forall_app. split; [done|].
    constructor; [|constructor]. simpl. unfold alias_or.
    destruct (rq_customAlias body) as [a|]; [|by left]. simpl.
    destruct (String.eqb_spec a ""); simpl; [right; left; by subst | right; by right].
  - unfold all_active. simpl. apply Forall_app. split; [done|]. by repeat constructor.
  - unfold clicks_refer in *. simpl. eapply Forall_impl; [exact Hr|].
    intros c Hc. simpl in *. rewrite map_app. apply in_or_app. by left.
  - unfold counters_exact in *. simpl. apply Forall_app. split.
    + eapply Forall_impl; [exact Hce|]. intros x Hx. simpl in *. exact Hx.
    + constructor; [|constructor]. simpl.
      change (count_clicks_of (with_link s l) l) with (count_clicks_of s l).
      symmetry. by apply count_clicks_of_fresh.
Qed.

Lemma store_inv_with_click (s : Store) (now : DateTime) (link : Link.t)
    (meta : RequestMeta) :
  store_inv s -> In link (links s) -> store_inv (with_click s now link meta).
Proof.
  intros (Hwf & [Hsc Hal] & Hac & Hact & Hr & Hce) Hin.
  split_and!.
  - by apply wf_with_click.
  - split; simpl; [by rewrite bump_map | by rewrite bump_omap].
  - unfold alias_is_code in *. simpl. apply Forall_map.
    eapply Forall_impl; [exact Hac|]. intros x Hx. simpl in *. by destruct (has_id _ x).
  - unfold all_active in *. simpl. apply Forall_map.
    eapply Forall_impl; [exact Hact|]. intros x Hx. simpl in *. by destruct (has_id _ x).
  - unfold clicks_refer in *. simpl. rewrite bump_map by done.
    apply Forall_app. split; [done|]. constructor; [|constructor]. simpl.
    by apply in_map.
  - unfold counters_exact in *. simpl. apply Forall_map.
    eapply Forall_impl; [exact Hce|]. intros x Hx. simpl in *.
    rewrite Forall_forall in Hce.
    unfold has_id, with_click.
    destruct (bool_decide (Link.id x = Link.id link)) eqn:E;
      rewrite count_clicks_of_app; simpl.
    + apply bool_decide_eq_true in E.
      rewrite bool_decide_eq_true_2 by done.
      change (count_clicks_of s (increment_totalClicks now 1 x))
        with (count_clicks_of s x). lia.
    + apply bool_decide_eq_false in E.
      rewrite bool_decide_eq_false_2 by congruence. lia.
Qed.

Lemma NoDup_map_In_inj {A B} (g : A -> B) (ls : list A) (a b : A) :
  NoDup (map g ls) -> In a ls -> In b ls -> g a = g b -> a = b.
Proof.
  induction ls as [|x ls IH]; simpl; [done|].
  intros Hnd Ha Hb Hg. apply NoDup_cons in Hnd as [Hx Hnd].
  destruct Ha as [->|Ha], Hb as [->|Hb]; try done.
  - destruct Hx. rewrite Hg. apply list_elem_of_In. by apply in_map.
  - destruct Hx. rewrite <- Hg. apply list_elem_of_In. by apply in_map.
  - by apply IH.
Qed.

Lemma NoDup_omap_In_inj {A B} (g : A -> option B) (ls : list A) (a b : A) (v : B) :
  NoDup (omap g ls) -> In a ls -> In b ls -> g a = Some v -> g b = Some v -> a = b.
Proof.
  induction ls as [|x ls IH]; [done|].
  intros Hnd Ha Hb Hga Hgb.
  assert (Hin : forall y, In y ls -> g y = Some v -> v ∈ omap g ls).
  { intros y Hy Hgy. apply list_elem_of_omap. exists y.
    split; [by apply list_elem_of_In | done]. }
  assert (Hcons : forall w, g x = Some w -> omap g (x :: ls) = w :: omap g ls).
  { intros w Hw. change (omap g (x :: ls))
      with (match g x with Some y => y :: omap g ls | None => omap g ls end).
    by rewrite Hw. }
  assert (Htail : NoDup (omap g ls)).
  { destruct (g x) as [w|] eqn:E.
    - rewrite (Hcons w eq_refl) in Hnd. by apply NoDup_cons in Hnd as [_ ?].
    - change (omap g (x :: ls))
        with (match g x with Some y => y :: omap g ls | None => omap g ls end) in Hnd.
      by rewrite E in Hnd. }
  destruct Ha as [->|Ha], Hb as [->|Hb]; try done.
  - rewrite (Hcons v Hga) in Hnd. apply NoDup_cons in Hnd as [Hx _].
    destruct Hx. by apply (Hin b).
  - rewrite (Hcons v Hgb) in Hnd. apply NoDup_cons in Hnd as [Hx _].
    destruct Hx. by apply (Hin a).
  - by apply IH.
Qed.

Section ReachableStores.
Context {P : Platform}.

Lemma handle_store_inv (now : DateTime) (r : Request) (s : Store) :
  store_inv s -> store_inv (snd (handle now r s)).
Proof.
  intros Hi. destruct r as [nanoid8 body | code meta | q | i |]; unfold handle.
  - destruct (create_inv now nanoid8 body s)
      as [(st & msg & -> & _) | (expires & Hu & ->)]; simpl; [done|].
    by apply store_inv_with_link.
  - destruct (List.find (matches_code code) (links s)) as [link|] eqn:Hf.
    + destruct (expired now link) eqn:He.
      * by rewrite (redirect_expired _ _ _ _ _ Hf He).
      * rewrite (redirect_found _ _ _ _ _ Hf He). simpl.
        apply store_inv_with_click; [done|]. apply find_some in Hf. tauto.
    + by rewrite (redirect_not_found _ _ _ _ Hf).
  - by rewrite list_keeps_store.
  - by rewrite get_keeps_store.
  - by rewrite overview_answer.
Qed.

Lemma reachable_store_inv (s : Store) : reachable s -> store_inv s.
Proof.
  induction 1 as [|s now r _ IH]; [apply store_inv_empty | by apply handle_store_inv].
Qed.

(** X2: in every reachable store two different rows of the links table
    differ in their id and in their [shortCode], and do not have the same
    [customAlias] set. *)
Theorem reachable_codes_unique (s : Store) (i j : nat) (l1 l2 : Link.t) :
  reachable s ->
  links s !! i = Some l1 -> links s !! j = Some l2 ->
  i <> j ->
  Link.id l1 <> Link.id l2
  /\ Link.shortCode l1 <> Link.shortCode l2
  /\ (forall a, Link.customAlias l1 = Some a -> Link.customAlias l2 <> Some a).
Proof.
  intros Hr H1 H2 Hij.
  destruct (reachable_store_inv s Hr) as ([Hid _] & [Hsc Hal] & _).
  assert (Hmap : forall {B} (g : Link.t -> B),
             NoDup (map g (links s)) -> g l1 <> g l2).
  { intros B g Hnd Hg. apply Hij.
    apply (NoDup_lookup (map g (links s)) i j (g l1) Hnd).
    - change (map g (links s)) with (g <$> links s).
      by rewrite list_lookup_fmap, H1.
    - change (map g (links s)) with (g <$> links s).
      by rewrite list_lookup_fmap, H2, Hg. }
  split; [by apply Hmap|]. split; [by apply Hmap|].
  intros a Ha1 Ha2.
  apply (Hmap _ Link.id Hid). f_equal.
  apply (NoDup_omap_In_inj Link.customAlias (links s) l1 l2 a); try done;
    apply list_elem_of_In; by eapply list_elem_of_lookup_2.
Qed.

(** X3: in every reachable store each link's [totalClicks] is the number
    of click rows that refer to it, so the [_count.clicks] that the list
    handler includes with a link equals the link's [totalClicks]. *)
Theorem reachable_counter_is_click_count (s : Store) :
  reachable s ->
  (forall l, In l (links s) ->
     Link.totalClicks l
     = Z.of_nat (length (List.filter
                           (fun c => bool_decide (Click.linkId c = Link.id l))
                           (clicks s))))
  /\ (forall q ls p s' l n,
        get_api_links q s = (Ret (Json 200 (LinksBody ls p)), s') ->
        In (l, n) ls -> n = Link.totalClicks l).
Proof.
  intros Hr. destruct (reachable_store_inv s Hr) as (_ & _ & _ & _ & _ & Hce).
  unfold counters_exact in Hce. rewrite Forall_forall in Hce.
  assert (H1 : forall l, In l (links s) -> Link.totalClicks l = count_clicks_of s l).
  { intros l Hl. apply Hce. by apply list_elem_of_In. }
  split; [exact H1|].
  intros q ls p s' l n H Hin. rewrite list_answer in H.
  destruct (page_of _ _ _) as [page|e] eqn:Hp; [|discriminate].
  injection H as <- <- <-.
  apply in_map_iff in Hin as (x & [= <- <-] & Hx).
  symmetry. apply H1.
  destruct (page_of_sorted newer _ _ _ _
              (StronglySorted_merge_sort newer (links s)) Hp) as [_ Hin].
  apply Hin in Hx. apply list_elem_of_In in Hx. apply list_elem_of_In.
  by rewrite merge_sort_Permutation in Hx.
Qed.

(** X4: in every reachable store each click row refers to a link of the
    store, and to one only. *)
Theorem reachable_click_has_link (s : Store) (c : Click.t) :
  reachable s ->
  In c (clicks s) ->
  exists l, In l (links s) /\ Link.id l = Click.linkId c
            /\ forall l', In l' (links s) -> Link.id l' = Click.linkId c -> l' = l.
Proof.
  intros Hr Hc. destruct (reachable_store_inv s Hr) as ([Hid _] & _ & _ & _ & Hrf & _).
  unfold clicks_refer in Hrf. rewrite Forall_forall in Hrf.
  apply list_elem_of_In in Hc. specialize (Hrf c Hc). simpl in Hrf.
  apply in_map_iff in Hrf as (l & Hl & Hin).
  exists l. split_and!; try done.
  intros l' Hin' Hl'. apply (NoDup_map_In_inj Link.id (links s)); try done. congruence.
Qed.

(** X5: in every reachable store a link with a non-empty [shortCode] is
    the one that the redirect lookup finds for that code; the code shown
    for it by the client, [customAlias || shortCode], is that
    [shortCode]; and a redirect request for it, while the link has not
    expired, is answered 302 to the link's [originalUrl]. *)
Theorem reachable_link_resolves (s : Store) (l : Link.t) :
  reachable s ->
  In l (links s) ->
  Link.shortCode l <> "" ->
  display_code l = Link.shortCode l
  /\ List.find (matches_code (Link.shortCode l)) (links s) = Some l
  /\ forall now meta,
       expired now l = false ->
       fst (get_s_shortCode now (display_code l) meta s)
       = Ret (Redirect 302 (Link.originalUrl l)).
Proof.
  intros Hr Hin Hne.
  destruct (reachable_store_inv s Hr) as (_ & [Hsc _] & Hac & Hact & _).
  unfold alias_is_code in Hac. unfold all_active in Hact.
  rewrite Forall_forall in Hac, Hact.
  assert (Hd : display_code l = Link.shortCode l).
  { unfold display_code, alias_or.
    destruct (Hac l (proj2 (list_elem_of_In _ _) Hin)) as [-> | [-> | ->]];
      simpl; try done.
    by destruct (String.eqb_spec (Link.shortCode l) ""). }
  assert (Hf : List.find (matches_code (Link.shortCode l)) (links s) = Some l).
  { destruct (List.find (matches_code (Link.shortCode l)) (links s)) as [l0|] eqn:Hf.
    - f_equal. pose proof (find_some _ _ Hf) as [Hin0 Hm].
      apply matches_code_true in Hm as [[Hc | Ha] _].
      + by apply (NoDup_map_In_inj Link.shortCode (links s)).
      + apply (NoDup_map_In_inj Link.shortCode (links s)); try done.
        destruct (Hac l0 (proj2 (list_elem_of_In _ _) Hin0)) as [H | [H | H]];
          congruence.
    - pose proof (find_none _ _ Hf l Hin) as Hm.
      assert (matches_code (Link.shortCode l) l = true); [|congruence].
      apply matches_code_true. split; [by left|].
      apply Hact. by apply list_elem_of_In. }
  split_and!; try done.
  intros now meta He. rewrite Hd. by rewrite (redirect_found _ _ _ _ _ Hf He).
Qed.
End ReachableStores.

Lemma store_two_reachable : reachable (P := scheme_platform) store_two.
Proof.
  exact (reachable_handle _ 2000 (CreateReq "k3J9x_Qa" (body_alias "docs"))
           (reachable_handle _ 1000 (CreateReq "V1StGXR8" body_plain) reachable_empty)).
Defined.

Lemma reachable_codes_unique_witness :
  links store_two !! 0%nat = Some link_one
  /\ links store_two !! 1%nat = Some link_docs
  /\ Link.id link_one <> Link.id link_docs
  /\ Link.shortCode link_one <> Link.shortCode link_docs
  /\ (forall a, Link.customAlias link_one = Some a ->
                Link.customAlias link_docs <> Some a).
Proof.
  split; [reflexivity|]. split; [reflexivity|].
  apply (reachable_codes_unique (P := scheme_platform) store_two 0 1
           link_one link_docs store_two_reachable);
    [reflexivity | reflexivity | lia].
Defined.

Lemma reachable_counter_is_click_count_witness :
  Link.totalClicks link_clicked
  = Z.of_nat (length (List.filter
                        (fun c => bool_decide (Click.linkId c = Link.id link_clicked))
                        (clicks store_clicked))).
Proof.
  apply (proj1 (reachable_counter_is_click_count (P := scheme_platform) store_clicked
                  store_clicked_reachable)).
  left. reflexivity.
Defined.

Lemma reachable_click_has_link_witness :
  exists l, In l (links store_clicked) /\ Link.id l = Click.linkId click_one
            /\ forall l', In l' (links store_clicked) ->
                          Link.id l' = Click.linkId click_one -> l' = l.
Proof.
  apply (reachable_click_has_link (P := scheme_platform) store_clicked click_one
           store_clicked_reachable).
  left. reflexivity.
Defined.

Lemma reachable_link_resolves_witness :
  display_code link_clicked = Link.shortCode link_clicked
  /\ List.find (matches_code (Link.shortCode link_clicked)) (links store_clicked)
     = Some link_clicked
  /\ forall now meta,
       expired now link_clicked = false ->
       fst (get_s_shortCode now (display_code link_clicked) meta store_clicked)
       = Ret (Redirect 302 (Link.originalUrl link_clicked)).
Proof.
  apply (reachable_link_resolves (P := scheme_platform) store_clicked link_clicked
           store_clicked_reachable); [left; reflexivity | discriminate].
Defined.

(** ** More on the redirect handler *)

(** X6: the redirect handler never answers 500: the link it found is in
    the store, so neither the click insert nor the counter update can
    fail; its answer is 404, 410 or the redirect with the click recorded. *)
Theorem redirect_never_fails (now : DateTime) (code : string) (meta : RequestMeta)
    (s : Store) :
  exists r s',
    get_s_shortCode now code meta s = (Ret r, s')
    /\ r <> internal_error
    /\ ((r = Json 404 (ErrorBody "Link not found") /\ s' = s)
        \/ (r = Json 410 (ErrorBody "Link has expired") /\ s' = s)
        \/ (exists link,
              List.find (matches_code code) (links s) = Some link
              /\ expired now link = false
              /\ r = Redirect 302 (Link.originalUrl link)
              /\ s' = with_click s now link meta)).
Proof.
  destruct (List.find (matches_code code) (links s)) as [link|] eqn:Hf.
  - destruct (expired now link) eqn:He.
    + rewrite (redirect_expired _ _ _ _ _ Hf He). eexists _, _.
      split_and!; [done | discriminate | right; left; done].
    + rewrite (redirect_found _ _ _ _ _ Hf He). eexists _, _.
      split_and!; [done | discriminate | right; right; by exists link].
  - rewrite (redirect_not_found _ _ _ _ Hf). eexists _, _.
    split_and!; [done | discriminate | left; done].
Qed.

Lemma find_map_bump (p q : Link.t -> bool) (f : Link.t -> Link.t) (ls : list Link.t) :
  (forall x, p (f x) = p x) ->
  List.find p (map (fun x => if q x then f x else x) ls)
  = option_map (fun x => if q x then f x else x) (List.find p ls).
Proof.
  intros H. induction ls as [|x ls IH]; simpl; [done|].
  replace (p (if q x then f x else x)) with (p x) by (destruct (q x); by rewrite ?H).
  by destruct (p x).
Qed.

Lemma redirects_cons (code : string) (r : DateTime * RequestMeta)
    (reqs : list (DateTime * RequestMeta)) (s : Store) :
  redirects code (r :: reqs) s
  = redirects code reqs (snd (get_s_shortCode (fst r) code (snd r) s)).
Proof. reflexivity. Qed.

(** X7: redirect requests for one code add up: when the code finds a
    link and none of the requests comes after the link's expiry, after
    [n] of them the code still finds that link, with [totalClicks] raised
    by [n], and the store has [n] more click rows. *)
Theorem redirects_add_up (reqs : list (DateTime * RequestMeta)) (code : string)
    (s : Store) (link : Link.t) :
  List.find (matches_code code) (links s) = Some link ->
  Forall (fun r => expired (fst r) link = false) reqs ->
  exists link',
    List.find (matches_code code) (links (redirects code reqs s)) = Some link'
    /\ Link.id link' = Link.id link
    /\ Link.originalUrl link' = Link.originalUrl link
    /\ Link.totalClicks link' = Link.totalClicks link + Z.of_nat (length reqs)
    /\ length (clicks (redirects code reqs s)) = (length (clicks s) + length reqs)%nat.
Proof.
  revert s link. induction reqs as [|[now meta] reqs IH]; intros s link Hf Hall.
  - exists link. simpl. split_and!; try done; lia.
  - apply Forall_cons in Hall as [He Hall]. simpl in He.
    rewrite redirects_cons. simpl fst. simpl snd.
    rewrite (redirect_found _ _ _ _ _ Hf He). simpl snd.
    set (link1 := increment_totalClicks now 1 link).
    assert (Hf1 : List.find (matches_code code) (links (with_click s now link meta))
                  = Some link1).
    { simpl. rewrite find_map_bump by done. rewrite Hf. simpl.
      by rewrite has_id_self. }
    assert (Hall1 : Forall (fun r => expired (fst r) link1 = false) reqs).
    { eapply Forall_impl; [exact Hall|]. by intros r Hr. }
    destruct (IH _ link1 Hf1 Hall1) as (link' & H1 & H2 & H3 & H4 & H5).
    exists link'. split_and!; try done.
    + rewrite H4. simpl. lia.
    + rewrite H5. simpl. rewrite length_app. simpl. lia.
Qed.

Lemma redirects_add_up_witness :
  exists link',
    List.find (matches_code "V1StGXR8")
      (links (redirects "V1StGXR8" [(2000, meta_curl); (2500, meta_curl)] store_one))
    = Some link'
    /\ Link.id link' = Link.id link_one
    /\ Link.originalUrl link' = Link.originalUrl link_one
    /\ Link.totalClicks link'
       = Link.totalClicks link_one
         + Z.of_nat (length [(2000, meta_curl); (2500, meta_curl)])
    /\ length (clicks (redirects "V1StGXR8"
                         [(2000, meta_curl); (2500, meta_curl)] store_one))
       = (length (clicks store_one)
          + length [(2000, meta_curl); (2500, meta_curl)])%nat.
Proof.
  apply (redirects_add_up [(2000, meta_curl); (2500, meta_curl)] "V1StGXR8"
           store_one link_one); [reflexivity | repeat constructor].
Defined.

(** ** More on the create handler *)

Section CreateFootprint.
Context {P : Platform}.

(** X8: the create handler answers 201, 400 or 500 and nothing else; it
    never touches a click row or an existing link.  On 400 and 500 the
    store is unchanged; on 201 exactly one row is appended, with the
    formatted URL, the request's title, description and alias, the alias
    or else the generated code as [shortCode], which no other link has,
    [isActive] set, no clicks, and both timestamps at the time of the
    request. *)
Theorem create_footprint (now : DateTime) (nanoid8 : string)
    (body : CreateLinkRequest) (s : Store) :
  exists r s',
    post_api_links now nanoid8 body s = (Ret r, s')
    /\ clicks s' = clicks s
    /\ ((exists status msg,
           r = Json status (ErrorBody msg) /\ (status = 400 \/ status = 500)%nat
           /\ s' = s)
        \/ (exists l,
              r = Json 201 (LinkBody l)
              /\ links s' = links s ++ [l]
              /\ Link.id l = nextId s
              /\ nextId s' = S (nextId s)
              /\ Link.originalUrl l = formatUrl (rq_originalUrl body)
              /\ Link.customAlias l = rq_customAlias body
              /\ Link.shortCode l = alias_or (rq_customAlias body) nanoid8
              /\ Link.title l = rq_title body
              /\ Link.description l = rq_description body
              /\ Link.isActive l = true
              /\ Link.totalClicks l = 0
              /\ Link.createdAt l = now
              /\ Link.updatedAt l = now
              /\ (forall l0, In l0 (links s) ->
                    Link.shortCode l0 <> Link.shortCode l))).
Proof.
  destruct (create_inv now nanoid8 body s)
    as [(st & msg & -> & Hst) | (expires & Hu & ->)].
  - eexists _, _. split_and!; try done. left. by exists st, msg.
  - eexists _, _. split_and!; try done. right.
    eexists. split_and!; try done.
    intros l0 Hin Heq. simpl in Heq.
    unfold unique_violation, create_input in Hu. simpl in Hu.
    apply orb_false_iff in Hu as [Hu _].
    assert (existsb (has_shortCode (alias_or (rq_customAlias body) nanoid8)) (links s)
            = true); [|congruence].
    apply existsb_has_shortCode. by exists l0.
Qed.
End CreateFootprint.

(** ** The link detail and the overview *)

#[local] Instance newer_click_trans : Transitive newer_click.
Proof. intros a b c. unfold newer_click. lia. Qed.

#[local] Instance newer_click_total : Total newer_click.
Proof. intros a b. unfold newer_click. lia. Qed.

#[local] Instance more_clicked_trans : Transitive more_clicked.
Proof. intros a b c. unfold more_clicked. lia. Qed.

#[local] Instance more_clicked_total : Total more_clicked.
Proof. intros a b. unfold more_clicked. lia. Qed.

(** The first [n] of an ordered table are ordered, and no row left out
    comes before one of them in the order. *)
Lemma top_of_sorted {A} (R : relation A) `{!RelDecision R, !Transitive R, !Total R}
    (n : nat) (l : list A) :
  exists rest,
    take n (merge_sort R l) ++ rest ≡ₚ l
    /\ StronglySorted R (take n (merge_sort R l))
    /\ (forall x y, In x (take n (merge_sort R l)) -> In y rest -> R x y)
    /\ length (take n (merge_sort R l)) = Nat.min n (length l).
Proof.
  exists (drop n (merge_sort R l)).
  pose proof (StronglySorted_merge_sort R l) as Hs.
  split_and!.
  - rewrite take_drop. apply merge_sort_Permutation.
  - by apply StronglySorted_take.
  - intros x y Hx Hy. rewrite <- (take_drop n (merge_sort R l)) in Hs.
    eapply StronglySorted_app_1_elem_of; [exact Hs | |]; by apply list_elem_of_In.
  - rewrite length_take. f_equal. apply Permutation_length, merge_sort_Permutation.
Qed.

Lemma filter_length_le_Z {A} (p : A -> bool) (l : list A) :
  Z.of_nat (length (List.filter p l)) <= Z.of_nat (length l).
Proof.
  induction l as [|x l IH]; simpl; [lia|]. destruct (p x); simpl; lia.
Qed.

(** X9: the detail handler answers 404 exactly when no link has the id;
    a 200 answer carries a link with that id and at most 100 of its click
    rows, newest first: the rows left out are rows of the link that are
    not newer than any row shown, and nothing is written. *)
Theorem get_link_detail (i : Id) (s : Store) :
  ((forall l, In l (links s) -> Link.id l <> i)
   <-> get_api_links_id i s = (Ret (Json 404 (ErrorBody "Link not found")), s))
  /\ (forall l cs s',
        get_api_links_id i s = (Ret (Json 200 (LinkDetailBody l cs)), s') ->
        s' = s
        /\ In l (links s)
        /\ Link.id l = i
        /\ length cs = Nat.min 100 (Z.to_nat (count_clicks_of s l))
        /\ StronglySorted newer_click cs
        /\ exists older,
             cs ++ older
             ≡ₚ List.filter (fun c => bool_decide (Click.linkId c = i)) (clicks s)
             /\ forall c c', In c cs -> In c' older ->
                             Click.createdAt c' <= Click.createdAt c).
Proof.
  unfold get_api_links_id, try_catch, bind, link_findUnique_with_clicks, ret.
  destruct (List.find (has_id i) (links s)) as [l0|] eqn:Hf.
  - pose proof (find_some _ _ Hf) as [Hin Hid]. apply has_id_true in Hid.
    split.
    + split; [|discriminate]. intros Hno. by destruct (Hno l0 Hin).
    + intros l cs s' [= <- <- <-].
      destruct (top_of_sorted newer_click 100
                  (List.filter (fun c => bool_decide (Click.linkId c = Link.id l0))
                               (clicks s)))
        as (older & Hperm & Hsorted & Hdom & Hlen).
      split_and!; try done.
      * rewrite Hlen. unfold count_clicks_of. by rewrite Nat2Z.id.
      * exists older. rewrite <- Hid. split; [done|].
        intros c c' Hc Hc'. by apply (Hdom c c').
  - split.
    + split; [done|]. intros _ l Hin.
      apply has_id_false. by apply (find_none _ _ Hf).
    + intros l cs s'. discriminate.
Qed.

Lemma get_link_detail_witness :
  get_api_links_id 7%nat store_clicked
    = (Ret (Json 404 (ErrorBody "Link not found")), store_clicked)
  /\ (Link.id link_clicked = 0%nat
      /\ length [click_one] = Nat.min 100 (Z.to_nat (count_clicks_of store_clicked link_clicked))).
Proof.
  split.
  - apply (proj1 (proj1 (get_link_detail 7%nat store_clicked))).
    intros l [<-|[]]. discriminate.
  - pose proof (proj2 (get_link_detail 0%nat store_clicked)
                  link_clicked [click_one] store_clicked eq_refl) as H.
    tauto.
Defined.

(** X10: the overview reports the number of links, and a number of
    recent clicks that is at most the number of clicks; its top links
    are the first five links (all of them when there are fewer) in
    descending order of [totalClicks], and no link left out has more
    clicks than one that is listed. *)
Theorem overview_top_links (now : DateTime) (s : Store) :
  exists a top rest,
    get_api_analytics_overview now s = (Ret (Json 200 (AnalyticsBody a)), s)
    /\ an_totalLinks a = Z.of_nat (length (links s))
    /\ 0 <= an_recentClicks a <= an_totalClicks a
    /\ an_topLinks a = map select_top top
    /\ top ++ rest ≡ₚ links s
    /\ length top = Nat.min 5 (length (links s))
    /\ StronglySorted more_clicked top
    /\ forall t r, In t top -> In r rest -> Link.totalClicks r <= Link.totalClicks t.
Proof.
  destruct (top_of_sorted more_clicked 5 (links s)) as (rest & Hperm & Hs & Hdom & Hlen).
  eexists _, (take 5 (merge_sort more_clicked (links s))), rest.
  split; [apply overview_answer|]. simpl.
  split_and!; try done; try lia;
    first [apply filter_length_le_Z | intros t r Ht Hr; by apply (Hdom t r)].
Qed.

(** ** The client's list query *)

Definition digit_char (d : Z) : ascii := ascii_of_nat (Z.to_nat (48 + d)).

Lemma digit_cases (d : Z) :
  0 <= d < 10 ->
  d = 0 \/ d = 1 \/ d = 2 \/ d = 3 \/ d = 4 \/ d = 5 \/ d = 6 \/ d = 7 \/ d = 8 \/ d = 9.
Proof. lia. Qed.

Lemma digit_val_digit_char (d : Z) :
  0 <= d < 10 -> digit_val 10 (digit_char d) = Some d.
Proof.
  intros H. destruct (digit_cases d H) as [->|[->|[->|[->|[->|[->|[->|[->|[->| ->]]]]]]]]];
    reflexivity.
Qed.

Lemma decimal_digits_step (f : nat) (n : Z) (acc : string) :
  decimal_digits (S f) n acc
  = if n <? 10 then String (digit_char (n mod 10)) acc
    else decimal_digits f (n / 10) (String (digit_char (n mod 10)) acc).
Proof. reflexivity. Qed.

(** Reading back the digits that were printed. *)
Lemma digits_prefix_decimal_digits (f : nat) :
  forall (n : Z) (acc : string) (st : option Z),
    0 <= n -> (Z.to_nat n < f)%nat -> default 0 st = 0 ->
    digits_prefix 10 (decimal_digits f n acc) st = digits_prefix 10 acc (Some n).
Proof.
  induction f as [|f IH]; intros n acc st Hn Hf Hst; [lia|].
  rewrite decimal_digits_step.
  assert (Hd : 0 <= n mod 10 < 10) by (apply Z.mod_pos_bound; lia).
  destruct (n <? 10) eqn:E.
  - apply Z.ltb_lt in E. simpl. rewrite digit_val_digit_char by done.
    rewrite Hst. f_equal. f_equal. rewrite Z.mod_small by lia. lia.
  - apply Z.ltb_ge in E.
    assert (Hq : 0 <= n / 10 < n) by (split; [apply Z.div_pos | apply Z.div_lt]; lia).
    rewrite (IH (n / 10) _ st) by (try done; lia).
    simpl. rewrite digit_val_digit_char by done. simpl.
    f_equal. f_equal. pose proof (Z.div_mod n 10). lia.
Qed.

(** The first character printed is a digit, and it is 0 only for 0. *)
Lemma decimal_digits_head (f : nat) :
  forall (n : Z) (acc : string),
    0 <= n -> (Z.to_nat n < f)%nat ->
    exists d rest,
      decimal_digits f n acc = String (digit_char d) rest
      /\ 0 <= d < 10
      /\ (d = 0 -> rest = acc).
Proof.
  induction f as [|f IH]; intros n acc Hn Hf; [lia|].
  rewrite decimal_digits_step.
  assert (Hd : 0 <= n mod 10 < 10) by (apply Z.mod_pos_bound; lia).
  destruct (n <? 10) eqn:E.
  - exists (n mod 10), acc. repeat split; try done; lia.
  - apply Z.ltb_ge in E.
    assert (Hq : 1 <= n / 10 < n).
    { split; [|apply Z.div_lt; lia].
      apply (Z.div_le_lower_bound n 10 1); lia. }
    destruct (IH (n / 10) (String (digit_char (n mod 10)) acc)) as (d & rest & Hs & Hd' & H0);
      [lia | lia |].
    exists d, rest. split; [done|]. split; [done|].
    intros ->. exfalso.
    pose proof (digits_prefix_decimal_digits f (n / 10)
                  (String (digit_char (n mod 10)) acc) None) as Hp.
    rewrite Hs, (H0 eq_refl) in Hp. simpl in Hp.
    rewrite digit_val_digit_char in Hp by done. simpl in Hp.
    specialize (Hp ltac:(lia) ltac:(lia) eq_refl).
    assert (Hinj : forall a b, digits_prefix 10 acc (Some a) = digits_prefix 10 acc (Some b)
                               -> a = b).
    { clear. induction acc as [|c acc IHa]; simpl; intros a b H; [congruence|].
      destruct (digit_val 10 c) as [d|]; [|congruence].
      apply IHa in H. simpl in H. lia. }
    apply Hinj in Hp.
    change (Z.of_nat (nat_of_ascii (digit_char 0))) with 48 in Hp. lia.
Qed.

Ltac norm_digit :=
  match goal with
  | |- context [digit_char ?d] =>
      let c := eval vm_compute in (digit_char d) in
      change (digit_char d) with c in *
  end.

Lemma skip_ws_head (c : ascii) (r : string) :
  is_ws c = false -> is_ws_lead c = false -> skip_ws (String c r) = String c r.
Proof. intros H1 H2. simpl. by rewrite H1, H2. Qed.

(** [parseInt] on a digit string that has no needless leading zero, and
    on such a string behind a minus sign. *)
Lemma parseInt_digit_string (d : Z) (rest : string) (n : Z) :
  0 <= d < 10 ->
  (d = 0 -> rest = "") ->
  digits_prefix 10 (String (digit_char d) rest) None = Some n ->
  parseInt (Some (String (digit_char d) rest)) = Num (to_double n)
  /\ parseInt (Some (String "-" (String (digit_char d) rest))) = Num (to_double (- n)).
Proof.
  intros Hd H0 Hp.
  destruct (digit_cases d Hd) as [->|[->|[->|[->|[->|[->|[->|[->|[->| ->]]]]]]]]];
    [rewrite (H0 eq_refl) in *|..];
    norm_digit; unfold parseInt;
    rewrite !skip_ws_head by reflexivity;
    cbn -[digits_prefix Z.mul Z.opp to_double];
    rewrite Hp, Z.mul_1_l; (split; [done|]); by replace (-1 * n) with (- n) by lia.
Qed.

Lemma parseInt_decimal_digits (n : Z) :
  0 <= n ->
  parseInt (Some (decimal_digits (S (Z.to_nat n)) n "")) = Num (to_double n)
  /\ parseInt (Some (String "-" (decimal_digits (S (Z.to_nat n)) n "")))
     = Num (to_double (- n)).
Proof.
  intros Hn.
  destruct (decimal_digits_head (S (Z.to_nat n)) n "" Hn ltac:(lia))
    as (d & rest & Hs & Hd & H0).
  pose proof (digits_prefix_decimal_digits (S (Z.to_nat n)) n "" None
                Hn ltac:(lia) eq_refl) as Hp.
  rewrite Hs in Hp |- *. simpl (digits_prefix 10 "" _) in Hp.
  by apply parseInt_digit_string.
Qed.

(** X11: printing a safe integer in decimal and reading it with
    [parseInt] gives the integer back, so the list handler computes, for
    the query that [getLinks(page, limit)] sends, that [page] and that
    [limit], with 0 replaced by the defaults 1 and 10. *)
Theorem getLinks_query_round_trip (page limit : Z) :
  is_safe_integer page -> is_safe_integer limit ->
  parseInt (Some (number_to_string page)) = Num page
  /\ list_page (getLinks_query page limit) = (if page =? 0 then 1 else page)
  /\ list_limit (getLinks_query page limit) = (if limit =? 0 then 10 else limit).
Proof.
  intros Hpage Hlimit.
  assert (H : forall n, is_safe_integer n ->
                        parseInt (Some (number_to_string n)) = Num n).
  { intros n Hn. rewrite <- (to_double_safe n Hn) at 2.
    unfold number_to_string. destruct (n <? 0) eqn:E.
    - apply Z.ltb_lt in E.
      destruct (parseInt_decimal_digits (- n) ltac:(lia)) as [_ Hp].
      rewrite Hp. f_equal. f_equal. lia.
    - apply Z.ltb_ge in E. by destruct (parseInt_decimal_digits n E). }
  split_and!; [by apply H | |];
    unfold list_page, list_limit, getLinks_query; cbn [q_page q_limit];
    rewrite H by done; [by destruct page | by destruct limit].
Qed.

Lemma getLinks_query_round_trip_witness :
  parseInt (Some (number_to_string 3)) = Num 3
  /\ list_page (getLinks_query 3 (-20)) = (if 3 =? 0 then 1 else 3)
  /\ list_limit (getLinks_query 3 (-20)) = (if -20 =? 0 then 10 else -20).
Proof.
  apply (getLinks_query_round_trip 3 (-20)); by vm_compute.
Defined.

(** ** Pages *)

Lemma ceil_div_spec (a b : Z) :
  0 < b -> (ceil_div a b - 1) * b < a <= ceil_div a b * b.
Proof.
  intros Hb. unfold ceil_div.
  pose proof (Z.div_mod (- a) b ltac:(lia)).
  pose proof (Z.mod_pos_bound (- a) b Hb). nia.
Qed.

Lemma list_positive_answer (q : ListQuery) (s : Store) :
  0 < list_page q -> 0 < list_limit q ->
  is_safe_integer (list_limit q) ->
  is_safe_integer ((list_page q - 1) * list_limit q) ->
  get_api_links q s =
    (Ret (Json 200
            (LinksBody
               (map (fun l => (l, count_clicks_of s l))
                    (take (Z.to_nat (list_limit q))
                       (drop (Z.to_nat ((list_page q - 1) * list_limit q))
                          (merge_sort newer (links s)))))
               (mkPagination (list_page q) (list_limit q)
                  (Z.of_nat (length (links s)))
                  (ceil_div (Z.of_nat (length (links s))) (list_limit q))))), s).
Proof.
  intros Hp Hl Hsl Hss. rewrite list_answer.
  rewrite (list_skip_safe q Hp Hl Hss).
  rewrite page_of_forward;
    [done | unfold is_safe_integer in Hss; nia | lia
     | by apply fits_int64_safe | by apply fits_int64_safe].
Qed.

(** X12: for positive [page] and [limit], with [limit] and
    [(page - 1) * limit] safe integers, the list handler answers 200
    with [min limit (total - (page - 1) * limit)] links, none when that
    is negative; [pages] is the least number of pages of [limit] links
    that hold [total] links; a page up to [pages] is not empty and a
    page after it is. *)
Theorem list_page_sizes (q : ListQuery) (s : Store) :
  0 < list_page q -> 0 < list_limit q ->
  is_safe_integer (list_limit q) ->
  is_safe_integer ((list_page q - 1) * list_limit q) ->
  exists ls p,
    get_api_links q s = (Ret (Json 200 (LinksBody ls p)), s)
    /\ pg_total p = Z.of_nat (length (links s))
    /\ Z.of_nat (length ls)
       = Z.max 0 (Z.min (list_limit q)
                    (pg_total p - (list_page q - 1) * list_limit q))
    /\ (pg_pages p - 1) * list_limit q < pg_total p <= pg_pages p * list_limit q
    /\ (list_page q <= pg_pages p -> ls <> [])
    /\ (pg_pages p < list_page q -> ls = []).
Proof.
  intros Hp Hl Hsl Hss. rewrite (list_positive_answer q s Hp Hl Hsl Hss).
  eexists _, _. split; [reflexivity|]. simpl.
  set (total := Z.of_nat (length (links s))).
  pose proof (ceil_div_spec total (list_limit q) Hl) as Hc.
  assert (Hlen : Z.of_nat (length (map (fun l => (l, count_clicks_of s l))
                    (take (Z.to_nat (list_limit q))
                       (drop (Z.to_nat ((list_page q - 1) * list_limit q))
                          (merge_sort newer (links s))))))
                 = Z.max 0 (Z.min (list_limit q)
                              (total - (list_page q - 1) * list_limit q))).
  { rewrite length_map, length_take, length_drop.
    rewrite (Permutation_length (merge_sort_Permutation newer (links s))).
    unfold total. assert (0 <= (list_page q - 1) * list_limit q) by nia. lia. }
  split_and!; try done; try lia.
  - intros Hle Hnil. rewrite Hnil in Hlen. simpl in Hlen. nia.
  - intros Hgt. apply length_zero_iff_nil. nia.
Qed.

Lemma list_page_sizes_witness :
  exists ls p,
    get_api_links (getLinks_query 2 2) store_three
      = (Ret (Json 200 (LinksBody ls p)), store_three)
    /\ pg_total p = Z.of_nat (length (links store_three))
    /\ Z.of_nat (length ls)
       = Z.max 0 (Z.min (list_limit (getLinks_query 2 2))
                    (pg_total p - (list_page (getLinks_query 2 2) - 1)
                                  * list_limit (getLinks_query 2 2)))
    /\ (pg_pages p - 1) * list_limit (getLinks_query 2 2) < pg_total p
       <= pg_pages p * list_limit (getLinks_query 2 2)
    /\ (list_page (getLinks_query 2 2) <= pg_pages p -> ls <> [])
    /\ (pg_pages p < list_page (getLinks_query 2 2) -> ls = []).
Proof.
  apply (list_page_sizes (getLinks_query 2 2) store_three);
    [reflexivity | reflexivity | by vm_compute | by vm_compute].
Defined.

Lemma concat_pages {A} (n m : nat) (l : list A) :
  concat (map (fun k => take n (drop (k * n) l)) (seq 0 m)) = take (m * n) l.
Proof.
  induction m as [|m IH]; [done|].
  rewrite seq_S, map_app, concat_app, IH. simpl. rewrite app_nil_r.
  rewrite take_take_drop. f_equal. lia.
Qed.

Lemma sorted_distinct_strict (l : list Link.t) :
  StronglySorted newer l -> NoDup (map Link.createdAt l) ->
  StronglySorted strictly_newer l.
Proof.
  induction 1 as [|x l Hs IH Hall]; intros Hnd; [constructor|].
  simpl in Hnd. apply NoDup_cons in Hnd as [Hx Hnd].
  constructor; [by apply IH|].
  rewrite Forall_forall in Hall |- *. intros y Hy.
  specialize (Hall y Hy). unfold newer in Hall. unfold strictly_newer.
  assert (Link.createdAt y <> Link.createdAt x); [|lia].
  intros Heq. apply Hx. rewrite <- Heq.
  change (map Link.createdAt l) with (Link.createdAt <$> l).
  apply list_elem_of_fmap. by exists y.
Qed.

(** X13: for a positive safe-integer [limit] and a store of links with
    pairwise different [createdAt] (fewer than 2^53 of them), the pages 1
    to [pages] that the client gets with [getLinks], one after the other,
    are the links of the store, each once, in strictly descending order
    of [createdAt]. *)
Theorem list_pages_cover_links (limit : Z) (s : Store) :
  0 < limit -> is_safe_integer limit ->
  is_safe_integer (Z.of_nat (length (links s))) ->
  NoDup (map Link.createdAt (links s)) ->
  let pages := ceil_div (Z.of_nat (length (links s))) limit in
  let all := concat (map (fun k => listed_page (Z.of_nat k + 1) limit s)
                         (seq 0 (Z.to_nat pages))) in
  all ≡ₚ links s /\ StronglySorted strictly_newer all.
Proof.
  intros Hl Hsafe Htotal Hnd pages all.
  pose proof (ceil_div_spec (Z.of_nat (length (links s))) limit Hl) as Hc.
  fold pages in Hc.
  assert (Hpage : forall k, (k < Z.to_nat pages)%nat ->
            listed_page (Z.of_nat k + 1) limit s
            = take (Z.to_nat limit) (drop (k * Z.to_nat limit) (merge_sort newer (links s)))).
  { intros k Hk. unfold listed_page.
    assert (Hsafe_k : is_safe_integer (Z.of_nat k + 1)).
    { unfold is_safe_integer in *. nia. }
    destruct (getLinks_query_round_trip (Z.of_nat k + 1) limit Hsafe_k Hsafe)
      as (_ & Hp & Hlim).
    replace (Z.of_nat k + 1 =? 0) with false in Hp by (symmetry; apply Z.eqb_neq; lia).
    replace (limit =? 0) with false in Hlim by (symmetry; apply Z.eqb_neq; lia).
    rewrite list_positive_answer; rewrite ?Hp, ?Hlim; try lia; try done.
    - simpl. rewrite map_map. simpl. rewrite map_id.
      f_equal. f_equal. nia.
    - unfold is_safe_integer in *. nia. }
  assert (Hall : all = merge_sort newer (links s)).
  { unfold all.
    rewrite (map_ext_in _ (fun k => take (Z.to_nat limit)
                                      (drop (k * Z.to_nat limit)
                                         (merge_sort newer (links s))))).
    - rewrite concat_pages. apply take_ge.
      rewrite (Permutation_length (merge_sort_Permutation newer (links s))). nia.
    - intros k Hk. apply in_seq in Hk. apply Hpage. lia. }
  rewrite Hall. split; [apply merge_sort_Permutation|].
  apply sorted_distinct_strict; [apply StronglySorted_merge_sort; apply _|].
  change (map Link.createdAt (merge_sort newer (links s)))
    with (Link.createdAt <$> merge_sort newer (links s)).
  by rewrite (merge_sort_Permutation newer (links s)).
Qed.

Lemma list_pages_cover_links_witness :
  let pages := ceil_div (Z.of_nat (length (links store_three))) 2 in
  let all := concat (map (fun k => listed_page (Z.of_nat k + 1) 2 store_three)
                         (seq 0 (Z.to_nat pages))) in
  pages = 2 /\ all ≡ₚ links store_three /\ StronglySorted strictly_newer all.
Proof.
  split; [reflexivity|].
  apply (list_pages_cover_links 2 store_three);
    [lia | by vm_compute | by vm_compute
     | apply (bool_decide_unpack _); vm_compute; exact I].
Defined.

(** ** The create form *)

Section Form.
Context {P : Platform}.

End Form.


(** ** What no handler does *)

Section AppendOnly.
Context {P : Platform}.

(** X15: no request removes a link or a click row, or changes what a
    link points to: after any request every link of the store is still
    there with the same id, URL, short code, alias, expiry, active flag
    and creation time, its [totalClicks] the same or one more, and the
    click rows of the store are the old ones followed by at most one new
    row. *)
Theorem handle_is_append_only (now : DateTime) (r : Request) (s : Store) :
  (forall l, In l (links s) ->
     exists l', In l' (links (snd (handle now r s)))
                /\ Link.id l' = Link.id l
                /\ Link.originalUrl l' = Link.originalUrl l
                /\ Link.shortCode l' = Link.shortCode l
                /\ Link.customAlias l' = Link.customAlias l
                /\ Link.expiresAt l' = Link.expiresAt l
                /\ Link.isActive l' = Link.isActive l
                /\ Link.createdAt l' = Link.createdAt l
                /\ Link.totalClicks l <= Link.totalClicks l' <= Link.totalClicks l + 1)
  /\ (clicks (snd (handle now r s)) = clicks s
      \/ exists c, clicks (snd (handle now r s)) = clicks s ++ [c])
  /\ (length (links s) <= length (links (snd (handle now r s))) <= S (length (links s)))%nat.
Proof.
  assert (Hsame : forall s', links s' = links s -> clicks s' = clicks s ->
            (forall l, In l (links s) ->
               exists l', In l' (links s')
                /\ Link.id l' = Link.id l
                /\ Link.originalUrl l' = Link.originalUrl l
                /\ Link.shortCode l' = Link.shortCode l
                /\ Link.customAlias l' = Link.customAlias l
                /\ Link.expiresAt l' = Link.expiresAt l
                /\ Link.isActive l' = Link.isActive l
                /\ Link.createdAt l' = Link.createdAt l
                /\ Link.totalClicks l <= Link.totalClicks l' <= Link.totalClicks l + 1)
            /\ (clicks s' = clicks s \/ exists c, clicks s' = clicks s ++ [c])
            /\ (length (links s) <= length (links s') <= S (length (links s)))%nat).
  { intros s' Hl Hc. rewrite Hl, Hc. split; [|split; [by left | lia]].
    intros l Hin. exists l. split_and!; try done; lia. }
  destruct r as [nanoid8 body | code meta | q | i |]; unfold handle.
  - destruct (create_inv now nanoid8 body s)
      as [(st & msg & -> & _) | (expires & _ & ->)]; simpl; [by apply Hsame|].
    split; [|split; [by left | rewrite length_app; simpl; lia]].
    intros l Hin. exists l. split; [apply in_or_app; by left|].
    split_and!; try done; lia.
  - destruct (redirect_never_fails now code meta s)
      as (r & s' & -> & _ & [[_ ->] | [[_ ->] | (link & _ & _ & _ & ->)]]);
      simpl; [by apply Hsame | by apply Hsame |].
    split; [|split; [right; by eexists | rewrite length_map; lia]].
    intros l Hin.
    exists (if has_id (Link.id link) l then increment_totalClicks now 1 l else l).
    split; [by apply (in_map (fun x => if has_id (Link.id link) x
                                       then increment_totalClicks now 1 x else x))|].
    destruct (has_id (Link.id link) l); simpl; split_and!; try done; lia.
  - rewrite list_keeps_store. by apply Hsame.
  - rewrite get_keeps_store. by apply Hsame.
  - rewrite overview_answer. by apply Hsame.
Qed.
End AppendOnly.

(** ** The QR handler in reachable stores *)

Section Qr.
Context {P : Platform}.

(** X16: the QR handler answers 404 exactly when no link has the id and
    writes nothing; in a reachable store, for the link with that id, it
    encodes the short URL with the code that the client shows for the
    link, [customAlias || shortCode], and answers with the data URI when
    the encoder returns one and with 500 when the encoder throws. *)
Theorem qr_encodes_displayed_url (toDataURL : string -> Outcome string)
    (protocol host : string) (i : Id) (s : Store) :
  snd (get_api_links_id_qr toDataURL protocol host i s) = s
  /\ ((forall l, In l (links s) -> Link.id l <> i)
      <-> fst (get_api_links_id_qr toDataURL protocol host i s)
          = Ret (QrError 404 "Link not found"))
  /\ (reachable s ->
      forall l, In l (links s) -> Link.id l = i ->
        fst (get_api_links_id_qr toDataURL protocol host i s)
        = match toDataURL (short_url protocol host (display_code l)) with
          | Ret qrCode => Ret (QrJson qrCode)
          | Throw _ => Ret (QrError 500 "Internal server error")
          end).
Proof.
  unfold get_api_links_id_qr, try_catch, bind, link_findUnique_id, ret.
  destruct (List.find (has_id i) (links s)) as [l0|] eqn:Hf.
  - pose proof (find_some _ _ Hf) as [Hin0 Hid0]. apply has_id_true in Hid0.
    split_and!.
    + by destruct (toDataURL _).
    + split.
      * intros Hno. by destruct (Hno l0 Hin0).
      * destruct (toDataURL _); discriminate.
    + intros Hr l Hin Hid.
      destruct (reachable_store_inv s Hr) as ([Hnd _] & _ & Hac & _).
      assert (l0 = l) as ->
          by (apply (NoDup_map_In_inj Link.id (links s)); try done; congruence).
      assert (Hd : display_code l = Link.shortCode l).
      { unfold alias_is_code in Hac. rewrite Forall_forall in Hac.
        unfold display_code, alias_or.
        destruct (Hac l (proj2 (list_elem_of_In _ _) Hin)) as [-> | [-> | ->]];
          simpl; try done.
        by destruct (String.eqb_spec (Link.shortCode l) ""). }
      rewrite Hd. by destruct (toDataURL _).
  - split_and!; [done | |].
    + split; [done|]. intros _ l Hin. apply has_id_false. by apply (find_none _ _ Hf).
    + intros _ l Hin Hid. pose proof (find_none _ _ Hf l Hin) as Hn.
      apply has_id_false in Hn. done.
Qed.
End Qr.

Lemma qr_encodes_displayed_url_witness :
  fst (get_api_links_id_qr (fun u => Ret ("data:image/png;base64," +:+ u))
         "https" "lnk.example" 0%nat store_clicked)
  = match Ret ("data:image/png;base64,"
               +:+ short_url "https" "lnk.example" (display_code link_clicked)) with
    | Ret qrCode => Ret (QrJson qrCode)
    | Throw _ => Ret (QrError 500 "Internal server error")
    end.
Proof.
  apply (proj2 (proj2 (qr_encodes_displayed_url (P := scheme_platform)
                         (fun u => Ret ("data:image/png;base64," +:+ u))
                         "https" "lnk.example" 0%nat store_clicked))
           store_clicked_reachable link_clicked); [left; reflexivity | reflexivity].
Defined.
